(** * franklad/logger: a logging facade over zerolog

    A shallow embedding of [logger.go] and the properties its specification
    states about it.

    The facade is a thin layer over collaborators that are not part of
    the repository: the Go runtime ([strings.ToLower], [os.Getenv],
    [os.OpenFile], [context.Context]) and the zerolog engine.  The parts
    of them the facade calls are modelled in the modules [Go] and
    [zerolog]; the two functions whose exact tables live outside the
    repository ([strings.ToLower] and [zerolog.ParseLevel]) are taken as
    parameters through the class [Imports], with one concrete instance
    used to run the examples.  The facade itself ([config], the options,
    [New], the emit methods, [WithFields], [WithContext], [FromContext],
    [SetLevel], [SetLogFormat], [createWriter], [convertFields]) follows
    [logger.go] function by function. *)

From Stdlib Require Import ZArith Ascii String.
From stdpp Require Import base gmap strings list fin_maps.

(** ** Go values and the process environment *)

Module Go.

(** A value of Go's [any] (the empty interface), tagged with its dynamic
    type.  Only the dynamic type [string] passes the assertion
    [x.(string)]; [AOther] stands for every dynamic type not listed, a
    named string type included. *)
Inductive any :=
| AString (s : string)
| AInt (n : Z)
| ABool (b : bool)
| ANil
| AOther (tag : nat).

(** The destination byte streams of the program (non-nil [io.Writer]
    values): standard output, a log file opened for append, a writer the
    caller supplies, the discarding writer, and zerolog's console wrapper
    around a writer. *)
Inductive Writer :=
| Stdout
| File (path : string)
| UserWriter (id : nat)
| Discard
| ConsoleWriter (Out : Writer) (TimeFormat : string) (NoColor : bool).

(** The state of the process the facade reads through package [os]:
    the environment variables ([Getenv] returns the empty string for an
    unset variable) and the outcome of opening a log file for append
    ([None] when the file opens, [Some msg] for the error text). *)
Record OS := {
  Getenv : string → string;
  OpenFile : string → option string;
}.

(** [strings.ToLower] on ASCII text: the letters [A] to [Z] (codes 65 to
    90) move to lower case, every other byte stays. *)
Definition lower_ascii (c : ascii) : ascii :=
  let n := nat_of_ascii c in
  if (65 <=? n)%nat && (n <=? 90)%nat then ascii_of_nat (n + 32) else c.

Fixpoint ascii_ToLower (s : string) : string :=
  match s with
  | EmptyString => EmptyString
  | String c s' => String (lower_ascii c) (ascii_ToLower s')
  end.

End Go.
Export Go.

(** ** The field encoder *)

(** The outcome of running a piece of Go code that may stop with a
    run-time panic. *)
Inductive outcome (A : Type) :=
| Ret (a : A)
| Panics (msg : string).
Arguments Ret {A} a.
Arguments Panics {A} msg.

(** [fields[i]]: indexing a slice panics out of range. *)
Definition at_index (fields : list any) (i : nat) : outcome any :=
  match fields !! i with
  | Some x => Ret x
  | None => Panics "index out of range"
  end.

(** The loop of [convertFields], from the state [(i, fieldMap)].  Each
    iteration advances [i] by two, so [fuel] iterations are enough when
    [fuel] exceeds half the length; running out of fuel is reported as a
    panic of its own so that it cannot be mistaken for a result. *)
Fixpoint convertFields_loop (fuel : nat) (fields : list any) (i : nat)
    (fieldMap : gmap string any) : outcome (gmap string any) :=
  match fuel with
  | O => Panics "out of fuel"
  | S fuel' =>
      if negb (i <? length fields)%nat then Ret fieldMap
      else if (length fields <=? i + 1)%nat then Ret fieldMap
      else
        match at_index fields i with
        | Panics msg => Panics msg
        | Ret (AString key) =>
            match at_index fields (i + 1) with
            | Panics msg => Panics msg
            | Ret v => convertFields_loop fuel' fields (i + 2) (<[key := v]> fieldMap)
            end
        | Ret _ => convertFields_loop fuel' fields (i + 2) fieldMap
        end
  end.

Definition convertFields (fields : list any) : outcome (gmap string any) :=
  convertFields_loop (S (length fields)) fields 0 ∅.

(** The same traversal by recursion on the slice, two elements at a
    time; [convertFields_encode_pairs] relates it to the loop. *)
Fixpoint encode_pairs (fields : list any) (fieldMap : gmap string any)
    : gmap string any :=
  match fields with
  | AString key :: v :: rest => encode_pairs rest (<[key := v]> fieldMap)
  | _ :: _ :: rest => encode_pairs rest fieldMap
  | _ => fieldMap
  end.

(** The pair at position [p] of a field sequence: elements [2p] and
    [2p+1], when both exist. *)
Definition pair_at (fields : list any) (p : nat) : option (any * any) :=
  match fields !! (2 * p)%nat, fields !! (2 * p + 1)%nat with
  | Some k, Some v => Some (k, v)
  | _, _ => None
  end.

(** [key] is bound to [v] by the last pair of [fields] whose first element
    is the string [key]. *)
Definition last_write (fields : list any) (key : string) (v : any) : Prop :=
  ∃ p, pair_at fields p = Some (AString key, v) ∧
       ∀ q v', (p < q)%nat → pair_at fields q ≠ Some (AString key, v').

(** ** The zerolog engine

    zerolog is an external collaborator.  The model keeps what the facade
    can observe of an engine handle: the writer it outputs to, its minimum
    level, the fields attached to it, and whether it stamps records with
    the time.  Functions are named after the zerolog API; the engine's
    package-level settings the facade never touches (global level,
    default context logger) are at their initial values. *)

Module zerolog.

Definition Level := Z.
Definition DebugLevel : Level := 0%Z.
Definition InfoLevel : Level := 1%Z.
Definition WarnLevel : Level := 2%Z.
Definition ErrorLevel : Level := 3%Z.
Definition FatalLevel : Level := 4%Z.
Definition PanicLevel : Level := 5%Z.
Definition NoLevel : Level := 6%Z.
Definition Disabled : Level := 7%Z.
Definition TraceLevel : Level := (-1)%Z.

Record Logger := {
  w : Writer;
  level : Level;
  context : list (gmap string any);
  timestamp : bool;
}.

(** [zerolog.New(w)]; a nil writer is replaced by the discarding one. *)
Definition New (w : option Writer) : Logger :=
  {| w := default Discard w; level := TraceLevel; context := []; timestamp := false |}.

(** [l.With().Timestamp().Logger()] *)
Definition With_Timestamp (l : Logger) : Logger :=
  {| w := w l; level := level l; context := context l; timestamp := true |}.

(** [l.With().Fields(fields).Logger()] *)
Definition With_Fields (l : Logger) (fields : gmap string any) : Logger :=
  {| w := w l; level := level l; context := context l ++ [fields];
     timestamp := timestamp l |}.

(** [l.Level(lvl)] *)
Definition Logger_Level (l : Logger) (lvl : Level) : Logger :=
  {| w := w l; level := lvl; context := context l; timestamp := timestamp l |}.

(** [l.Output(w)]: a logger on [w] that keeps the level, the attached
    fields and the hooks of [l]. *)
Definition Output (l : Logger) (w' : option Writer) : Logger :=
  {| w := w (New w'); level := level l; context := context l;
     timestamp := timestamp l |}.

Definition GetLevel (l : Logger) : Level := level l.

(** [zerolog.Nop()], the logger [zerolog.Ctx] answers with when a
    carrier holds no logger. *)
Definition Nop : Logger := Logger_Level (New None) Disabled.
Definition disabledLogger : Logger := Nop.

(** A propagation carrier (a [context.Context] that is not nil): an
    immutable chain of key/value overlays.  [ctxKey] is zerolog's
    private key.  The nil carrier, on which [WithContext] and
    [FromContext] panic, is not a value of this type. *)
Inductive CtxKey := ctxKey | UserKey (name : string).
Inductive CtxVal := LoggerPtr (l : Logger) | UserVal (v : any).
Inductive Carrier :=
| Background
| WithValue (parent : Carrier) (key : CtxKey) (val : CtxVal).

Definition key_eqb (a b : CtxKey) : bool :=
  match a, b with
  | ctxKey, ctxKey => true
  | UserKey x, UserKey y => String.eqb x y
  | _, _ => false
  end.

Fixpoint Value (ctx : Carrier) (key : CtxKey) : option CtxVal :=
  match ctx with
  | Background => None
  | WithValue parent k v => if key_eqb k key then Some v else Value parent key
  end.

(** The logger bound to a carrier under zerolog's key, if any. *)
Definition bound (ctx : Carrier) : option Logger :=
  match Value ctx ctxKey with
  | Some (LoggerPtr l) => Some l
  | _ => None
  end.

(** [zerolog.Ctx(ctx)] *)
Definition Ctx (ctx : Carrier) : Logger :=
  match bound ctx with
  | Some l => l
  | None => disabledLogger
  end.

(** [l.WithContext(ctx)] (value receiver): binds a copy of [l]; a
    disabled logger is not stored in a carrier that holds none. *)
Definition WithContext (l : Logger) (ctx : Carrier) : Carrier :=
  match bound ctx with
  | None => if (level l =? Disabled)%Z then ctx else WithValue ctx ctxKey (LoggerPtr l)
  | Some _ => WithValue ctx ctxKey (LoggerPtr l)
  end.

(** What one logging call hands to the writer. *)
Record Event := {
  ev_out : Writer;
  ev_timestamp : bool;
  ev_level : Level;
  ev_context : list (gmap string any);
  ev_err : option string;
  ev_fields : gmap string any;
  ev_msg : string;
}.

(** An event is written when its level is not below the logger's (the
    global level is at its initial value, [TraceLevel], and no sampler is
    installed). *)
Definition should (l : Logger) (lvl : Level) : bool := (level l <=? lvl)%Z.

(** [l.<Level>().Err(err).Fields(fields).Msg(msg)] *)
Definition log (l : Logger) (lvl : Level) (err : option string)
    (fields : gmap string any) (msg : string) : option Event :=
  if should l lvl then
    Some {| ev_out := w l; ev_timestamp := timestamp l; ev_level := lvl;
            ev_context := context l; ev_err := err; ev_fields := fields;
            ev_msg := msg |}
  else None.

(** The level names every zerolog version parses, compared without
    regard to ASCII case. *)
Definition ParseLevel_names (levelStr : string) : option Level :=
  let s := ascii_ToLower levelStr in
  if String.eqb s "trace" then Some TraceLevel
  else if String.eqb s "debug" then Some DebugLevel
  else if String.eqb s "info" then Some InfoLevel
  else if String.eqb s "warn" then Some WarnLevel
  else if String.eqb s "error" then Some ErrorLevel
  else if String.eqb s "fatal" then Some FatalLevel
  else if String.eqb s "panic" then Some PanicLevel
  else if String.eqb s "disabled" then Some Disabled
  else if String.eqb s "" then Some NoLevel
  else None.

End zerolog.

(** The text of the error zerolog gives for a level it does not parse. *)
Definition ParseLevel_names_error (levelStr : string) : string :=
  "Unknown Level String: '" +:+ levelStr +:+ "', defaulting to NoLevel".

(** The library functions taken as parameters: [strings.ToLower],
    [zerolog.ParseLevel] ([None] when it returns an error) and the text
    of that error. *)
Class Imports := {
  ToLower : string → string;
  ParseLevel : string → option zerolog.Level;
  ParseLevel_error : string → string;
}.

(** The instance the examples run with: ASCII lower-casing and the named
    levels. *)
Definition sample_imports : Imports :=
  {| ToLower := ascii_ToLower; ParseLevel := zerolog.ParseLevel_names;
     ParseLevel_error := ParseLevel_names_error |}.

(** ** The facade: data *)

Definition LogFormatJSON := "json".
Definition LogFormatConsole := "console".
Definition LevelInfo := "info".
Definition RFC3339 := "2006-01-02T15:04:05Z07:00".

Inductive error := ErrInvalidLogLevel | ErrInvalidLogFormat.

Definition Error (e : error) : string :=
  match e with
  | ErrInvalidLogLevel => "invalid log level"
  | ErrInvalidLogFormat => "invalid log format"
  end.

Record config := {
  level : string;
  logFormat : string;
  timeFormat : string;
  out : Writer;
}.

(** Addresses of heap objects.  Go never frees a reachable object, so a
    heap is a growing list and an address an index into it. *)
Abbreviation loc := nat.

(** [ZeroLogger]: an engine handle held by value and a pointer to a
    configuration ([cfg] is the field [config] of the source). *)
Record ZeroLogger := {
  logger : zerolog.Logger;
  cfg : loc;
}.

(** The mutable state the facade works on: the [ZeroLogger] objects
    (a [Logger] interface value is the address of one), the [config]
    objects they point to, and the engine's package variable
    [zerolog.TimeFieldFormat]. *)
Record heap := {
  objs : list ZeroLogger;
  cfgs : list config;
  TimeFieldFormat : string;
}.

(** The state at the start of the process: no facade, and the engine's
    time format at its initial value. *)
Definition empty_heap : heap :=
  {| objs := []; cfgs := []; TimeFieldFormat := RFC3339 |}.

(** The construction options.  The type [option] of the source is not
    exported, so callers obtain its values from these four functions
    only; the nil function, which [New] would panic on, is not a value
    of this type, and the writer of [WithOutput] is not nil. *)
Inductive option_ :=
| WithLevel (level : string)
| WithLogFormat (format : string)
| WithTimeFormat (format : string)
| WithOutput (w : Writer).

(** Running an option on a configuration. *)
Definition apply_option (c : config) (opt : option_) : config :=
  match opt with
  | WithLevel l =>
      {| level := l; logFormat := logFormat c; timeFormat := timeFormat c; out := out c |}
  | WithLogFormat f =>
      {| level := level c; logFormat := f; timeFormat := timeFormat c; out := out c |}
  | WithTimeFormat f =>
      {| level := level c; logFormat := logFormat c; timeFormat := f; out := out c |}
  | WithOutput w =>
      {| level := level c; logFormat := logFormat c; timeFormat := timeFormat c; out := w |}
  end.

Definition defaults : config :=
  {| level := LevelInfo; logFormat := LogFormatJSON; timeFormat := RFC3339;
     out := Stdout |}.

(** ** The facade: a state monad with panics *)

Definition M (A : Type) : Type := heap → outcome (A * heap).

#[global] Instance M_ret : MRet M := λ A a σ, Ret (a, σ).
#[global] Instance M_bind : MBind M := λ A B f m σ,
  match m σ with
  | Ret (a, σ') => f a σ'
  | Panics msg => Panics msg
  end.

#[global] Instance M_fmap : FMap M := λ A B f m σ,
  match m σ with
  | Ret (a, σ') => Ret (f a, σ')
  | Panics msg => Panics msg
  end.

Definition panic {A} (msg : string) : M A := λ _, Panics msg.

Definition lift {A} (o : outcome A) : M A := λ σ,
  match o with
  | Ret a => Ret (a, σ)
  | Panics msg => Panics msg
  end.

Definition nil_dereference := "invalid memory address or nil pointer dereference".

(** [*z] for a [ZeroLogger] pointer and [*c] for a [config] pointer. *)
Definition deref (z : loc) : M ZeroLogger := λ σ,
  match objs σ !! z with
  | Some o => Ret (o, σ)
  | None => Panics nil_dereference
  end.

Definition deref_config (c : loc) : M config := λ σ,
  match cfgs σ !! c with
  | Some x => Ret (x, σ)
  | None => Panics nil_dereference
  end.

(** Assignments through a pointer. *)
Definition assign (z : loc) (o : ZeroLogger) : M unit := λ σ,
  Ret (tt, {| objs := <[z := o]> (objs σ); cfgs := cfgs σ;
              TimeFieldFormat := TimeFieldFormat σ |}).

Definition assign_config (c : loc) (x : config) : M unit := λ σ,
  Ret (tt, {| objs := objs σ; cfgs := <[c := x]> (cfgs σ);
              TimeFieldFormat := TimeFieldFormat σ |}).

Definition set_TimeFieldFormat (f : string) : M unit := λ σ,
  Ret (tt, {| objs := objs σ; cfgs := cfgs σ; TimeFieldFormat := f |}).

(** [&ZeroLogger{...}] and [&config{...}]: a fresh object. *)
Definition alloc (o : ZeroLogger) : M loc := λ σ,
  Ret (length (objs σ),
       {| objs := objs σ ++ [o]; cfgs := cfgs σ;
          TimeFieldFormat := TimeFieldFormat σ |}).

Definition alloc_config (x : config) : M loc := λ σ,
  Ret (length (cfgs σ),
       {| objs := objs σ; cfgs := cfgs σ ++ [x];
          TimeFieldFormat := TimeFieldFormat σ |}).

(** What an emit method did: the event handed to the writer, if the level
    let it through, and how the call ended. *)
Inductive ending := Returns | Exits | Unwinds.

Record emitted := {
  written : option zerolog.Event;
  ended : ending;
}.

(** ** The facade: operations *)

Section Facade.

Context `{Imports}.

(** [createWriter]: the Go pair (writer, error), a nil component being
    [None]. *)
Definition createWriter (os : OS) (format : string) (out : Writer)
    (timeFormat : string) : option Writer * option error :=
  let f := ToLower format in
  if String.eqb f LogFormatJSON then (Some out, None)
  else if String.eqb f LogFormatConsole then
    let cw := ConsoleWriter out timeFormat false in
    let cw := if negb (String.eqb (Getenv os "NO_COLOR") "")
              then ConsoleWriter out timeFormat true else cw in
    (Some cw, None)
  else (None, Some ErrInvalidLogFormat).

(** The configuration [New] works on before it builds the logger: the
    defaults, overridden by [LOG_LEVEL], [LOG_FORMAT] and [LOG_FILE]
    when they are not empty.  The configuration is reachable from [New]
    alone until [New] returns, so it is threaded as a value and stored
    when the facade is allocated. *)
Definition env_config (os : OS) : M config :=
  let config := defaults in
  let config :=
    let level' := Getenv os "LOG_LEVEL" in
    if negb (String.eqb level' "") then apply_option config (WithLevel level')
    else config in
  let config :=
    let format := Getenv os "LOG_FORMAT" in
    if negb (String.eqb format "") then apply_option config (WithLogFormat format)
    else config in
  let file := Getenv os "LOG_FILE" in
  if negb (String.eqb file "") then
    match OpenFile os file with
    | Some err => panic ("failed to open log file: " +:+ err)
    | None => mret (apply_option config (WithOutput (File file)))
    end
  else mret config.

Definition New (os : OS) (options : list option_) : M loc :=
  config ← env_config os;
  let config := foldl apply_option config options in
  set_TimeFieldFormat (timeFormat config);;
  match createWriter os (logFormat config) (out config) (timeFormat config) with
  | (_, Some err) => panic ("failed to create log writer: " +:+ Error err)
  | (outWriter, None) =>
      let logger := zerolog.With_Timestamp (zerolog.New outWriter) in
      match ParseLevel (ToLower (level config)) with
      | None =>
          panic ("invalid log level: " +:+ ParseLevel_error (ToLower (level config)))
      | Some logLevel =>
          c ← alloc_config config;
          alloc {| logger := zerolog.Logger_Level logger logLevel; cfg := c |}
      end
  end.

(** The seven emit methods share one shape: the engine call at a level,
    with the encoded fields, and the ending the engine gives the level.
    The result is what the call did up to its ending, not a return to
    the caller: with [ended = Exits] ([Fatal]) the process exits and
    with [ended = Unwinds] ([Panic]) the call panics, written or not;
    only [ended = Returns] gives control back.  [written] is the record
    handed to the writer; what the writer makes of it at that moment is
    [render], below. *)
Definition emit (lvl : zerolog.Level) (e : ending) (z : loc)
    (err : option string) (msg : string) (fields : list any) : M emitted :=
  o ← deref z;
  fieldMap ← lift (convertFields fields);
  mret {| written := zerolog.log (logger o) lvl err fieldMap msg; ended := e |}.

Definition Trace (z : loc) := emit zerolog.TraceLevel Returns z None.
Definition Debug (z : loc) := emit zerolog.DebugLevel Returns z None.
Definition Info (z : loc) := emit zerolog.InfoLevel Returns z None.
Definition Warn (z : loc) := emit zerolog.WarnLevel Returns z None.
(* The method [Error]; the name [Error] is taken by the text of an error value. *)
Definition Error_ (z : loc) := emit zerolog.ErrorLevel Returns z.
Definition Fatal (z : loc) := emit zerolog.FatalLevel Exits z.
Definition Panic (z : loc) := emit zerolog.PanicLevel Unwinds z.

Definition WithFields (z : loc) (fields : list any) : M loc :=
  o ← deref z;
  fieldMap ← lift (convertFields fields);
  alloc {| logger := zerolog.With_Fields (logger o) fieldMap; cfg := cfg o |}.

Definition WithContext (z : loc) (ctx : zerolog.Carrier) : M zerolog.Carrier :=
  o ← deref z;
  mret (zerolog.WithContext (logger o) ctx).

Definition FromContext (z : loc) (ctx : zerolog.Carrier) : M loc :=
  let logger' := zerolog.Ctx ctx in
  if (zerolog.GetLevel logger' =? zerolog.Disabled)%Z then
    o ← deref z;
    alloc {| logger := logger o; cfg := cfg o |}
  else
    o ← deref z;
    alloc {| logger := logger'; cfg := cfg o |}.

Definition SetLevel (z : loc) (level : string) : M (option error) :=
  match ParseLevel (ToLower level) with
  | None => mret (Some ErrInvalidLogLevel)
  | Some logLevel =>
      o ← deref z;
      assign z {| logger := zerolog.Logger_Level (logger o) logLevel; cfg := cfg o |};;
      mret None
  end.

Definition SetLogFormat (os : OS) (z : loc) (format : string) : M (option error) :=
  o ← deref z;
  c ← deref_config (cfg o);
  match createWriter os format (out c) (timeFormat c) with
  | (_, Some err) => mret (Some err)
  | (outWriter, None) =>
      assign z {| logger := zerolog.Output (logger o) outWriter; cfg := cfg o |};;
      assign_config (cfg o)
        {| level := level c; logFormat := format; timeFormat := timeFormat c;
           out := out c |};;
      mret None
  end.

(** The operations of the [Logger] interface as calls on a facade, and
    their replies.  Every call runs in a process state [os]; which
    calls consult it is what [run] records. *)
Inductive call :=
| CallTrace (msg : string) (fields : list any)
| CallDebug (msg : string) (fields : list any)
| CallInfo (msg : string) (fields : list any)
| CallWarn (msg : string) (fields : list any)
| CallError (err : option string) (msg : string) (fields : list any)
| CallFatal (err : option string) (msg : string) (fields : list any)
| CallPanic (err : option string) (msg : string) (fields : list any)
| CallWithFields (fields : list any)
| CallWithContext (ctx : zerolog.Carrier)
| CallFromContext (ctx : zerolog.Carrier)
| CallSetLevel (level : string)
| CallSetLogFormat (format : string).

Inductive reply :=
| Emitted (e : emitted)
| Facade (z : loc)
| Carried (ctx : zerolog.Carrier)
| Failure (err : option error).

Definition run (os : OS) (z : loc) (c : call) : M reply :=
  match c with
  | CallTrace msg fields => Emitted <$> Trace z msg fields
  | CallDebug msg fields => Emitted <$> Debug z msg fields
  | CallInfo msg fields => Emitted <$> Info z msg fields
  | CallWarn msg fields => Emitted <$> Warn z msg fields
  | CallError err msg fields => Emitted <$> Error_ z err msg fields
  | CallFatal err msg fields => Emitted <$> Fatal z err msg fields
  | CallPanic err msg fields => Emitted <$> Panic z err msg fields
  | CallWithFields fields => Facade <$> WithFields z fields
  | CallWithContext ctx => Carried <$> WithContext z ctx
  | CallFromContext ctx => Facade <$> FromContext z ctx
  | CallSetLevel level => Failure <$> SetLevel z level
  | CallSetLogFormat format => Failure <$> SetLogFormat os z format
  end.

End Facade.

(** ** Specification-side definitions *)

(** No pair of [fields] has the string [key] as its first element. *)
Definition unwritten (fields : list any) (key : string) : Prop :=
  ∀ p v, pair_at fields p ≠ Some (AString key, v).

(** The configuration of a facade: what its [config] pointer leads to. *)
Definition config_of (σ : heap) (z : loc) : option config :=
  o ← objs σ !! z; cfgs σ !! cfg o.

(** The layering the specification describes for construction, field by
    field: the value of the last option that sets the field, else the
    environment variable when it is not empty, else the default. *)
Definition sets_level (opt : option_) : option string :=
  match opt with WithLevel l => Some l | _ => None end.
Definition sets_logFormat (opt : option_) : option string :=
  match opt with WithLogFormat f => Some f | _ => None end.
Definition sets_timeFormat (opt : option_) : option string :=
  match opt with WithTimeFormat f => Some f | _ => None end.
Definition sets_out (opt : option_) : option Writer :=
  match opt with WithOutput w => Some w | _ => None end.

Fixpoint last_set {A} (sets : option_ → option A) (options : list option_)
    : option A :=
  match options with
  | [] => None
  | opt :: rest =>
      match last_set sets rest with
      | Some a => Some a
      | None => sets opt
      end
  end.

Definition from_env {A} (os : OS) (name : string) (use : string → A) (dflt : A) : A :=
  if String.eqb (Getenv os name) "" then dflt else use (Getenv os name).

Definition layered (os : OS) (options : list option_) : config :=
  {| level := default (from_env os "LOG_LEVEL" id LevelInfo)
                (last_set sets_level options);
     logFormat := default (from_env os "LOG_FORMAT" id LogFormatJSON)
                    (last_set sets_logFormat options);
     timeFormat := default RFC3339 (last_set sets_timeFormat options);
     out := default (from_env os "LOG_FILE" File Stdout)
              (last_set sets_out options) |}.

(** The log file named by the environment, if any, can be opened. *)
Definition log_file_opens (os : OS) : Prop :=
  Getenv os "LOG_FILE" = "" ∨ OpenFile os (Getenv os "LOG_FILE") = None.

(** The calls that build a console writer: [SetLogFormat] with a format
    that lower-cases to [console]. *)
Definition builds_console `{Imports} (c : call) : Prop :=
  match c with
  | CallSetLogFormat format => ToLower format = LogFormatConsole
  | _ => False
  end.

(** Two process states agree on whether [NO_COLOR] is set. *)
Definition same_no_color (os1 os2 : OS) : Prop :=
  Getenv os1 "NO_COLOR" = "" ↔ Getenv os2 "NO_COLOR" = "".

(** Process states and programs the examples run. *)
Definition plain_os : OS :=
  {| Getenv := λ _, ""; OpenFile := λ _, None |}.

Definition no_color_os : OS :=
  {| Getenv := λ name, if String.eqb name "NO_COLOR" then "1" else "";
     OpenFile := λ _, None |}.

Definition warn_env_os : OS :=
  {| Getenv := λ name, if String.eqb name "LOG_LEVEL" then "warn" else "";
     OpenFile := λ _, None |}.

(** The facade [New] returns in a process with an empty environment, the
    state it leaves, and the state after a facade is derived from it. *)
Definition sample_logger : zerolog.Logger :=
  {| zerolog.w := Stdout; zerolog.level := zerolog.InfoLevel;
     zerolog.context := []; zerolog.timestamp := true |}.

Definition sample_facade : ZeroLogger := {| logger := sample_logger; cfg := 0 |}.

Definition sample_heap : heap :=
  {| objs := [sample_facade]; cfgs := [defaults]; TimeFieldFormat := RFC3339 |}.

Definition derived_facade : ZeroLogger :=
  {| logger := zerolog.With_Fields sample_logger ∅; cfg := 0 |}.

Definition derived_heap : heap :=
  {| objs := [sample_facade; derived_facade]; cfgs := [defaults];
     TimeFieldFormat := RFC3339 |}.

Definition console_config : config :=
  {| level := LevelInfo; logFormat := "console"; timeFormat := RFC3339;
     out := Stdout |}.

(** [derived_heap] after [SetLogFormat] to [console] on the first facade. *)
Definition console_heap : heap :=
  {| objs := [{| logger := zerolog.Output sample_logger
                             (Some (ConsoleWriter Stdout RFC3339 false));
                 cfg := 0 |}; derived_facade];
     cfgs := [console_config]; TimeFieldFormat := RFC3339 |}.

(** A carrier on which a disabled logger was bound over an enabled one. *)
Definition rebound_carrier : zerolog.Carrier :=
  zerolog.WithContext (zerolog.Logger_Level sample_logger zerolog.Disabled)
    (zerolog.WithContext sample_logger zerolog.Background).

(** ** Definitions for the further properties *)

(** Every facade of the heap points to a configuration of the heap. *)
Definition well_formed (σ : heap) : Prop :=
  ∀ z o, objs σ !! z = Some o → (cfg o < length (cfgs σ))%nat.

(** The calls of the seven emit methods. *)
Definition is_emit (c : call) : Prop :=
  match c with
  | CallTrace _ _ | CallDebug _ _ | CallInfo _ _ | CallWarn _ _
  | CallError _ _ _ | CallFatal _ _ _ | CallPanic _ _ _ => True
  | _ => False
  end.

(** The calls that assign to the receiver. *)
Definition is_setter (c : call) : Prop :=
  match c with
  | CallSetLevel _ | CallSetLogFormat _ => True
  | _ => False
  end.

(** The level an emit method logs at and the way its call ends, method
    by method: [Fatal] ends the process, [Panic] panics, the others
    return to the caller. *)
Definition method_level (c : call) : option zerolog.Level :=
  match c with
  | CallTrace _ _ => Some zerolog.TraceLevel
  | CallDebug _ _ => Some zerolog.DebugLevel
  | CallInfo _ _ => Some zerolog.InfoLevel
  | CallWarn _ _ => Some zerolog.WarnLevel
  | CallError _ _ _ => Some zerolog.ErrorLevel
  | CallFatal _ _ _ => Some zerolog.FatalLevel
  | CallPanic _ _ _ => Some zerolog.PanicLevel
  | _ => None
  end.

Definition method_ending (c : call) : ending :=
  match c with
  | CallFatal _ _ _ => Exits
  | CallPanic _ _ _ => Unwinds
  | _ => Returns
  end.

(** What the engine's writer does with the process state when it is
    handed a record: zerolog's console writer looks [NO_COLOR] up again
    at every write, and colours the line unless its [NoColor] field is
    set or the variable is not empty; the other writers pass the record
    on as it is. *)
Definition colours (os : OS) (w : Writer) : bool :=
  match w with
  | ConsoleWriter _ _ NoColor => negb NoColor && String.eqb (Getenv os "NO_COLOR") ""
  | _ => false
  end.

Record rendering := {
  record : zerolog.Event;
  coloured : bool;
}.

Definition render (os : OS) (ev : zerolog.Event) : rendering :=
  {| record := ev; coloured := colours os (zerolog.ev_out ev) |}.

(** The facade writes through a console writer. *)
Definition console_pipeline (σ : heap) (z : loc) : Prop :=
  ∃ o Out TimeFormat NoColor,
    objs σ !! z = Some o ∧
    zerolog.w (logger o) = ConsoleWriter Out TimeFormat NoColor.

Section Observation.

Context `{Imports}.

(** A call as seen from outside, in the process state [os]: its reply
    and new state, and for an emit call the record as the writer renders
    it at that moment. *)
Definition observe (os : OS) (z : loc) (c : call) : M (reply * option rendering) :=
  (λ r, (r, match r with
            | Emitted em => render os <$> written em
            | _ => None
            end)) <$> run os z c.

(** The calls that look [NO_COLOR] up: [SetLogFormat] to [console], and
    an emit method on a facade that writes through a console writer. *)
Definition reads_no_color (σ : heap) (z : loc) (c : call) : Prop :=
  builds_console c ∨ (is_emit c ∧ console_pipeline σ z).

End Observation.

(** Two options set the same field of the configuration. *)
Definition same_field (a b : option_) : bool :=
  match a, b with
  | WithLevel _, WithLevel _ => true
  | WithLogFormat _, WithLogFormat _ => true
  | WithTimeFormat _, WithTimeFormat _ => true
  | WithOutput _, WithOutput _ => true
  | _, _ => false
  end.

(** An event sent to another writer, and an event with one more field
    set attached. *)
Definition redirect (w : Writer) (ev : zerolog.Event) : zerolog.Event :=
  {| zerolog.ev_out := w;
     zerolog.ev_timestamp := zerolog.ev_timestamp ev;
     zerolog.ev_level := zerolog.ev_level ev;
     zerolog.ev_context := zerolog.ev_context ev;
     zerolog.ev_err := zerolog.ev_err ev;
     zerolog.ev_fields := zerolog.ev_fields ev;
     zerolog.ev_msg := zerolog.ev_msg ev |}.

Definition attach (fieldMap : gmap string any) (ev : zerolog.Event) : zerolog.Event :=
  {| zerolog.ev_out := zerolog.ev_out ev;
     zerolog.ev_timestamp := zerolog.ev_timestamp ev;
     zerolog.ev_level := zerolog.ev_level ev;
     zerolog.ev_context := zerolog.ev_context ev ++ [fieldMap];
     zerolog.ev_err := zerolog.ev_err ev;
     zerolog.ev_fields := zerolog.ev_fields ev;
     zerolog.ev_msg := zerolog.ev_msg ev |}.

(** What a client of the package can do: construct a facade, or call a
    method of the [Logger] interface on a facade. *)
Inductive action :=
| Construct (os : OS) (options : list option_)
| Invoke (os : OS) (z : loc) (c : call).

Section Programs.

Context `{Imports}.

Definition perform (a : action) : M unit :=
  match a with
  | Construct os options => New os options;; mret tt
  | Invoke os z c => run os z c;; mret tt
  end.

Fixpoint perform_all (actions : list action) : M unit :=
  match actions with
  | [] => mret tt
  | a :: rest => perform a;; perform_all rest
  end.

(** The states a client can reach from the start of the process. *)
Definition reachable (σ : heap) : Prop :=
  ∃ actions, perform_all actions empty_heap = Ret (tt, σ).

(** [example/main.go]: the function [main], returning what each of its
    emit calls wrote, in order.  The results of [SetLevel] and
    [SetLogFormat] are dropped, as in the source. *)
Definition main (os : OS) : M (list (option zerolog.Event)) :=
  log ← New os [WithLevel "trace"; WithLogFormat "console"; WithOutput Stdout];
  log ← WithFields log [AString "app"; AString "example";
                        AString "version"; AString "1.0.0"];
  e1 ← Trace log "This is a trace message" [];
  e2 ← Debug log "This is a debug message" [];
  e3 ← Info log "This is an info message" [];
  e4 ← Warn log "This is a warning message" [];
  e5 ← Error_ log None "This is an error message" [];
  SetLevel log "info";;
  e6 ← Debug log "This debug message will not be logged due to level change" [];
  e7 ← Info log "This is another info message after changing level" [];
  ctx ← WithContext log zerolog.Background;
  log' ← FromContext log ctx;
  log ← WithFields log' [AString "key"; AString "value"];
  e8 ← Info log "This message is from context with additional fields" [];
  SetLogFormat os log "json";;
  e9 ← Info log "This message is now in JSON format" [];
  mret (written <$> [e1; e2; e3; e4; e5; e6; e7; e8; e9]).

End Programs.

(** The fields [main] attaches, and the event of one of its emit calls. *)
Definition app_fields : gmap string any :=
  <["version" := AString "1.0.0"]> (<["app" := AString "example"]> ∅).

Definition key_fields : gmap string any := <["key" := AString "value"]> ∅.

Definition main_event (w : Writer) (lvl : zerolog.Level)
    (context : list (gmap string any)) (msg : string) : zerolog.Event :=
  {| zerolog.ev_out := w; zerolog.ev_timestamp := true; zerolog.ev_level := lvl;
     zerolog.ev_context := context; zerolog.ev_err := None;
     zerolog.ev_fields := ∅; zerolog.ev_msg := msg |}.

(** Process states and heaps the further examples run in: a log file
    that cannot be opened, an unknown format in the environment, and a
    heap whose one facade is disabled. *)
Definition locked_file_os : OS :=
  {| Getenv := λ name, if String.eqb name "LOG_FILE" then "/var/log/app.log" else "";
     OpenFile := λ _, Some "permission denied" |}.

Definition yaml_os : OS :=
  {| Getenv := λ name, if String.eqb name "LOG_FORMAT" then "yaml" else "";
     OpenFile := λ _, None |}.

Definition disabled_facade : ZeroLogger :=
  {| logger := zerolog.Logger_Level sample_logger zerolog.Disabled; cfg := 0 |}.

Definition disabled_heap : heap :=
  {| objs := [disabled_facade]; cfgs := [defaults]; TimeFieldFormat := RFC3339 |}.

(** * Properties *)

(** ** The field encoder *)

Lemma pair_ind (P : list any → Prop) :
  P [] → (∀ x, P [x]) → (∀ x y l, P l → P (x :: y :: l)) → ∀ l, P l.
Proof.
  intros Hnil Hone Hstep.
  assert (Hboth : ∀ l, P l ∧ ∀ x, P (x :: l)).
  { induction l as [|y l [IH1 IH2]]; split; auto. }
  intros l. apply Hboth.
Qed.

Lemma pair_at_nil p : pair_at [] p = None.
Proof. reflexivity. Qed.

Lemma pair_at_single x p : pair_at [x] p = None.
Proof.
  unfold pair_at. destruct p as [|p]; simpl; [reflexivity|].
  replace (p + S (p + 0))%nat with (S (p + (p + 0))) by lia. reflexivity.
Qed.

Lemma pair_at_head x y l : pair_at (x :: y :: l) 0 = Some (x, y).
Proof. reflexivity. Qed.

Lemma pair_at_tail x y l p : pair_at (x :: y :: l) (S p) = pair_at l p.
Proof.
  unfold pair_at.
  replace (2 * S p)%nat with (S (S (2 * p))) by lia.
  replace (S (S (2 * p)) + 1)%nat with (S (S (2 * p + 1))) by lia.
  reflexivity.
Qed.

(** The loop computes [encode_pairs] on what is left of the slice. *)
Lemma convertFields_loop_encode_pairs fuel : ∀ fields i fieldMap,
  (0 < fuel)%nat → (length fields < i + 2 * fuel)%nat →
  convertFields_loop fuel fields i fieldMap
  = Ret (encode_pairs (drop i fields) fieldMap).
Proof.
  induction fuel as [|fuel IH]; intros fields i fieldMap Hpos Hfuel; [lia|].
  simpl. destruct (Nat.ltb_spec i (length fields)) as [Hlt|Hge]; simpl.
  2: { rewrite drop_ge by lia. reflexivity. }
  destruct (lookup_lt_is_Some_2 fields i Hlt) as [x Hx].
  destruct (Nat.leb_spec (length fields) (i + 1)) as [Hlast|Hpair].
  - rewrite (drop_S _ _ _ Hx), drop_ge by lia. destruct x; reflexivity.
  - destruct (lookup_lt_is_Some_2 fields (i + 1)) as [y Hy]; [lia|].
    unfold at_index. rewrite Hx, Hy.
    rewrite (drop_S _ _ _ Hx).
    replace (S i) with (i + 1)%nat by lia. rewrite (drop_S _ _ _ Hy).
    replace (S (i + 1)) with (i + 2)%nat by lia.
    destruct x; simpl; apply IH; lia.
Qed.

Lemma convertFields_encode_pairs fields :
  convertFields fields = Ret (encode_pairs fields ∅).
Proof.
  unfold convertFields.
  rewrite convertFields_loop_encode_pairs by lia. reflexivity.
Qed.

Lemma last_write_cons x y l key v :
  last_write (x :: y :: l) key v ↔
  last_write l key v ∨ (unwritten l key ∧ x = AString key ∧ y = v).
Proof.
  split.
  - intros [p [Hp Hlast]]. destruct p as [|p].
    + rewrite pair_at_head in Hp. injection Hp as -> ->. right.
      split; [|done]. intros q v' Hq. apply (Hlast (S q) v'); [lia|].
      by rewrite pair_at_tail.
    + rewrite pair_at_tail in Hp. left. exists p. split; [done|].
      intros q v' Hq Hq'. apply (Hlast (S q) v'); [lia|].
      by rewrite pair_at_tail.
  - intros [[p [Hp Hlast]]|[Hun [-> ->]]].
    + exists (S p). rewrite pair_at_tail. split; [done|].
      intros [|q] v' Hq; [lia|]. rewrite pair_at_tail. apply Hlast. lia.
    + exists 0%nat. split; [done|].
      intros [|q] v' Hq; [lia|]. rewrite pair_at_tail. apply Hun.
Qed.

Lemma unwritten_cons x y l key :
  unwritten (x :: y :: l) key ↔ x ≠ AString key ∧ unwritten l key.
Proof.
  split.
  - intros Hun. split.
    + intros ->. by apply (Hun 0%nat y).
    + intros p v Hp. apply (Hun (S p) v). by rewrite pair_at_tail.
  - intros [Hx Hun] [|p] v.
    + rewrite pair_at_head. congruence.
    + rewrite pair_at_tail. apply Hun.
Qed.

Lemma encode_pairs_lookup fields : ∀ fieldMap key v,
  encode_pairs fields fieldMap !! key = Some v ↔
  last_write fields key v ∨ (unwritten fields key ∧ fieldMap !! key = Some v).
Proof.
  induction fields as [|x|x y l IH] using pair_ind; intros fieldMap key v.
  - simpl. split.
    + intros Hm. right. split; [|done]. intros p v'. by rewrite pair_at_nil.
    + intros [[p [Hp _]]|[_ Hm]]; [by rewrite pair_at_nil in Hp|done].
  - assert (encode_pairs [x] fieldMap = fieldMap) as -> by by destruct x.
    split.
    + intros Hm. right. split; [|done]. intros p v'. by rewrite pair_at_single.
    + intros [[p [Hp _]]|[_ Hm]]; [by rewrite pair_at_single in Hp|done].
  - rewrite last_write_cons, unwritten_cons.
    assert (Hcases : (∃ k, x = AString k ∧
                encode_pairs (x :: y :: l) fieldMap = encode_pairs l (<[k := y]> fieldMap))
            ∨ ((∀ k, x ≠ AString k) ∧
                encode_pairs (x :: y :: l) fieldMap = encode_pairs l fieldMap)).
    { destruct x; eauto; right; split; done. }
    destruct Hcases as [[k [-> ->]]|[Hx ->]]; rewrite IH.
    + destruct (decide (k = key)) as [->|Hne].
      * rewrite lookup_insert_eq. split.
        -- intros [?|[? [= ->]]]; [tauto|]. left. right. done.
        -- intros [[?|[? [_ ->]]]|[[? _] _]]; [tauto|tauto|done].
      * rewrite lookup_insert_ne by done. split.
        -- intros [?|[? ?]]; [tauto|]. right. split; [|done]. split; [congruence|done].
        -- intros [[?|[? [[= ?] _]]]|[[_ ?] ?]]; [tauto|done|tauto].
    + split.
      * intros [?|[? ?]]; [tauto|]. right. split; [|done]. split; [apply Hx|done].
      * intros [[?|[? [? _]]]|[[_ ?] ?]]; [tauto| |tauto]. by destruct (Hx key).
Qed.

(** C1.  [convertFields] returns a mapping for every field sequence (no
    index runs out of range, no panic), and the mapping binds [key] to [v]
    exactly when the last consecutive pair whose first element is the
    string [key] has [v] as its second element: pairs with another first
    element contribute nothing, nor does a trailing element without a
    partner, which the encoder drops. *)
Theorem convertFields_last_write (fields : list any) :
  ∃ fieldMap,
    convertFields fields = Ret fieldMap ∧
    (∀ key v, fieldMap !! key = Some v ↔ last_write fields key v) ∧
    (∀ x, Nat.Even (length fields) → convertFields (fields ++ [x]) = Ret fieldMap).
Proof.
  exists (encode_pairs fields ∅). split; [apply convertFields_encode_pairs|]. split.
  - intros key v. rewrite encode_pairs_lookup. split; [|tauto].
    intros [?|[_ Hm]]; [done|]. by rewrite lookup_empty in Hm.
  - intros x Heven. rewrite convertFields_encode_pairs. f_equal.
    generalize (∅ : gmap string any).
    induction fields as [|y|y y' l IH] using pair_ind; intros m.
    + by destruct x.
    + destruct Heven as [n Hn]. simpl in Hn. lia.
    + assert (Nat.Even (length l)) as Hl.
      { destruct Heven as [n Hn]. simpl in Hn. exists (n - 1)%nat. lia. }
      destruct y; simpl; apply IH, Hl.
Qed.

(** ** The facade *)

(** Unfolds the monad operations of a facade method. *)
Ltac unfold_M :=
  unfold mbind, mret, fmap, M_bind, M_ret, M_fmap, deref, deref_config,
    assign, assign_config, alloc, alloc_config, set_TimeFieldFormat, panic, lift.

Lemma lookup_snoc_new {A} (l : list A) (x : A) :
  (l ++ [x]) !! length l = Some x.
Proof. rewrite lookup_app_r by lia. by rewrite Nat.sub_diag. Qed.

Lemma insert_snoc_new {A} (l : list A) (x y : A) :
  <[length l := y]> (l ++ [x]) = l ++ [y].
Proof.
  rewrite insert_app_r_alt by lia. by rewrite Nat.sub_diag.
Qed.

Lemma foldl_apply_option options : ∀ c,
  foldl apply_option c options
  = {| level := default (level c) (last_set sets_level options);
       logFormat := default (logFormat c) (last_set sets_logFormat options);
       timeFormat := default (timeFormat c) (last_set sets_timeFormat options);
       out := default (out c) (last_set sets_out options) |}.
Proof.
  induction options as [|opt rest IH]; intros c; simpl.
  - by destruct c.
  - rewrite IH.
    destruct opt; simpl;
      destruct (last_set sets_level rest), (last_set sets_logFormat rest),
        (last_set sets_timeFormat rest), (last_set sets_out rest); reflexivity.
Qed.

Lemma last_set_app {A} (sets : option_ → option A) xs ys :
  last_set sets (xs ++ ys)
  = match last_set sets ys with Some a => Some a | None => last_set sets xs end.
Proof.
  induction xs as [|x xs IH]; simpl.
  - by destruct (last_set sets ys).
  - rewrite IH. by destruct (last_set sets ys).
Qed.

Section FacadeProperties.

Context `{Imports}.

Lemma createWriter_cases os format out timeFormat :
  (ToLower format = LogFormatJSON ∧
   createWriter os format out timeFormat = (Some out, None))
  ∨ (ToLower format = LogFormatConsole ∧
     createWriter os format out timeFormat
     = (Some (ConsoleWriter out timeFormat
                (negb (String.eqb (Getenv os "NO_COLOR") ""))), None))
  ∨ (ToLower format ≠ LogFormatJSON ∧ ToLower format ≠ LogFormatConsole ∧
     createWriter os format out timeFormat = (None, Some ErrInvalidLogFormat)).
Proof.
  unfold createWriter.
  destruct (String.eqb_spec (ToLower format) LogFormatJSON) as [Hj|Hj]; [by left|].
  destruct (String.eqb_spec (ToLower format) LogFormatConsole) as [Hc|Hc].
  - right. left. split; [done|]. by destruct (String.eqb _ "").
  - right. right. done.
Qed.

Lemma createWriter_json os format out timeFormat :
  ToLower format = "json" →
  createWriter os format out timeFormat = (Some out, None).
Proof. intros Hf. unfold createWriter. by rewrite Hf. Qed.

Lemma createWriter_console os format out timeFormat :
  ToLower format = "console" →
  createWriter os format out timeFormat
  = (Some (ConsoleWriter out timeFormat
             (negb (String.eqb (Getenv os "NO_COLOR") ""))), None).
Proof.
  intros Hf. unfold createWriter. rewrite Hf. simpl.
  by destruct (String.eqb _ "").
Qed.

(** [createWriter] reads the process state only for whether [NO_COLOR]
    is empty. *)
Lemma createWriter_same_no_color os1 os2 format out timeFormat :
  same_no_color os1 os2 →
  createWriter os1 format out timeFormat = createWriter os2 format out timeFormat.
Proof.
  intros Hsame. unfold createWriter.
  destruct (String.eqb _ LogFormatJSON); [done|].
  destruct (String.eqb _ LogFormatConsole); [|done].
  destruct (String.eqb_spec (Getenv os1 "NO_COLOR") "") as [H1|H1],
           (String.eqb_spec (Getenv os2 "NO_COLOR") "") as [H2|H2];
    simpl; try done; destruct Hsame; tauto.
Qed.

(** *** What each method computes on a live facade *)

Lemma SetLogFormat_fails os z format σ o c w err :
  objs σ !! z = Some o →
  cfgs σ !! cfg o = Some c →
  createWriter os format (out c) (timeFormat c) = (w, Some err) →
  SetLogFormat os z format σ = Ret (Some ErrInvalidLogFormat, σ).
Proof.
  intros Hz Hc Hw. unfold SetLogFormat. unfold_M. rewrite Hz, Hc.
  destruct (createWriter_cases os format (out c) (timeFormat c))
    as [[_ Hw']|[[_ Hw']|(_ & _ & Hw')]]; rewrite Hw' in *; by simplify_eq.
Qed.

Lemma SetLogFormat_succeeds os z format σ o c w :
  objs σ !! z = Some o →
  cfgs σ !! cfg o = Some c →
  createWriter os format (out c) (timeFormat c) = (w, None) →
  SetLogFormat os z format σ
  = Ret (None,
         {| objs := <[z := {| logger := zerolog.Output (logger o) w;
                              cfg := cfg o |}]> (objs σ);
            cfgs := <[cfg o := {| level := level c; logFormat := format;
                                  timeFormat := timeFormat c; out := out c |}]>
                      (cfgs σ);
            TimeFieldFormat := TimeFieldFormat σ |}).
Proof.
  intros Hz Hc Hw. unfold SetLogFormat. unfold_M. by rewrite Hz, Hc, Hw.
Qed.

Lemma SetLevel_fails z level σ :
  ParseLevel (ToLower level) = None →
  SetLevel z level σ = Ret (Some ErrInvalidLogLevel, σ).
Proof. intros Hp. unfold SetLevel. by rewrite Hp. Qed.

Lemma SetLevel_succeeds z level σ o logLevel :
  objs σ !! z = Some o →
  ParseLevel (ToLower level) = Some logLevel →
  SetLevel z level σ
  = Ret (None,
         {| objs := <[z := {| logger := zerolog.Logger_Level (logger o) logLevel;
                              cfg := cfg o |}]> (objs σ);
            cfgs := cfgs σ;
            TimeFieldFormat := TimeFieldFormat σ |}).
Proof.
  intros Hz Hp. unfold SetLevel. rewrite Hp. unfold_M. by rewrite Hz.
Qed.

Lemma WithFields_returns z fields σ o :
  objs σ !! z = Some o →
  ∃ fieldMap,
    convertFields fields = Ret fieldMap ∧
    WithFields z fields σ
    = Ret (length (objs σ),
           {| objs := objs σ ++ [{| logger := zerolog.With_Fields (logger o) fieldMap;
                                    cfg := cfg o |}];
              cfgs := cfgs σ;
              TimeFieldFormat := TimeFieldFormat σ |}).
Proof.
  intros Hz. exists (encode_pairs fields ∅).
  split; [apply convertFields_encode_pairs|].
  unfold WithFields. unfold_M.
  by rewrite Hz, convertFields_encode_pairs.
Qed.

(** A facade derived by [WithFields] is a new object: the receiver was
    live before the call, the result was not. *)
Lemma WithFields_inv z fields σ child σ' :
  WithFields z fields σ = Ret (child, σ') →
  ∃ o fieldMap,
    objs σ !! z = Some o ∧ child = length (objs σ) ∧ child ≠ z ∧
    objs σ' = objs σ ++ [{| logger := zerolog.With_Fields (logger o) fieldMap;
                            cfg := cfg o |}] ∧
    cfgs σ' = cfgs σ.
Proof.
  unfold WithFields. unfold_M.
  destruct (objs σ !! z) as [o|] eqn:Hz; [|done].
  rewrite convertFields_encode_pairs. intros [= <- <-]. simpl.
  exists o, (encode_pairs fields ∅). split_and!; try done.
  apply lookup_lt_Some in Hz. lia.
Qed.

Lemma FromContext_fallback z ctx σ o :
  objs σ !! z = Some o →
  zerolog.level (zerolog.Ctx ctx) = zerolog.Disabled →
  FromContext z ctx σ
  = Ret (length (objs σ),
         {| objs := objs σ ++ [{| logger := logger o; cfg := cfg o |}];
            cfgs := cfgs σ;
            TimeFieldFormat := TimeFieldFormat σ |}).
Proof.
  intros Hz Hd. unfold FromContext, zerolog.GetLevel. rewrite Hd. simpl.
  unfold_M. by rewrite Hz.
Qed.

Lemma FromContext_retrieves z ctx σ o :
  objs σ !! z = Some o →
  zerolog.level (zerolog.Ctx ctx) ≠ zerolog.Disabled →
  FromContext z ctx σ
  = Ret (length (objs σ),
         {| objs := objs σ ++ [{| logger := zerolog.Ctx ctx; cfg := cfg o |}];
            cfgs := cfgs σ;
            TimeFieldFormat := TimeFieldFormat σ |}).
Proof.
  intros Hz Hd. unfold FromContext, zerolog.GetLevel.
  destruct (Z.eqb_spec (zerolog.level (zerolog.Ctx ctx)) zerolog.Disabled); [done|].
  unfold_M. by rewrite Hz.
Qed.

Lemma env_config_layered os σ :
  log_file_opens os → env_config os σ = Ret (layered os [], σ).
Proof.
  intros Hopen. unfold env_config, layered, from_env. simpl.
  destruct (String.eqb_spec (Getenv os "LOG_FILE") "") as [Hf|Hf]; simpl.
  - destruct (String.eqb (Getenv os "LOG_LEVEL") ""),
             (String.eqb (Getenv os "LOG_FORMAT") ""); reflexivity.
  - destruct Hopen as [?|Hopen]; [done|]. rewrite Hopen.
    destruct (String.eqb (Getenv os "LOG_LEVEL") ""),
             (String.eqb (Getenv os "LOG_FORMAT") ""); reflexivity.
Qed.

Lemma env_config_inv os σ c σ' :
  env_config os σ = Ret (c, σ') → log_file_opens os.
Proof.
  unfold env_config, log_file_opens.
  destruct (String.eqb_spec (Getenv os "LOG_FILE") "") as [Hf|Hf]; simpl; [by left|].
  destruct (OpenFile os (Getenv os "LOG_FILE")); [done|by right].
Qed.

Lemma layered_foldl os options :
  foldl apply_option (layered os []) options = layered os options.
Proof. by rewrite foldl_apply_option. Qed.

Lemma New_returns os options σ w logLevel :
  let config := layered os options in
  log_file_opens os →
  createWriter os (logFormat config) (out config) (timeFormat config) = (w, None) →
  ParseLevel (ToLower (level config)) = Some logLevel →
  New os options σ
  = Ret (length (objs σ),
         {| objs := objs σ ++
              [{| logger := zerolog.Logger_Level
                              (zerolog.With_Timestamp (zerolog.New w)) logLevel;
                  cfg := length (cfgs σ) |}];
            cfgs := cfgs σ ++ [config];
            TimeFieldFormat := timeFormat config |}).
Proof.
  intros config Hopen Hw Hl. unfold New.
  unfold mbind at 1. unfold M_bind at 1.
  rewrite (env_config_layered _ _ Hopen), layered_foldl.
  fold config. unfold_M. simpl. simpl in Hw, Hl. by rewrite Hw, Hl.
Qed.

Lemma New_inv os options σ z σ' :
  New os options σ = Ret (z, σ') →
  let config := layered os options in
  log_file_opens os ∧
  ∃ w logLevel,
    createWriter os (logFormat config) (out config) (timeFormat config) = (w, None) ∧
    ParseLevel (ToLower (level config)) = Some logLevel.
Proof.
  intros Hnew config. assert (Hopen : log_file_opens os).
  { unfold New in Hnew. unfold mbind at 1 in Hnew. unfold M_bind at 1 in Hnew.
    destruct (env_config os σ) as [[c σ0]|] eqn:Henv; [|done].
    by eapply env_config_inv. }
  split; [done|]. revert Hnew. unfold New.
  unfold mbind at 1. unfold M_bind at 1.
  rewrite (env_config_layered _ _ Hopen), layered_foldl. fold config.
  unfold_M. simpl. subst config. simpl.
  destruct (createWriter os _ _ _) as [w [err|]]; [done|].
  destruct (ParseLevel _) as [logLevel|]; [|done].
  intros _. by exists w, logLevel.
Qed.

Lemma emit_returns lvl e z err msg fields σ o :
  objs σ !! z = Some o →
  emit lvl e z err msg fields σ
  = Ret ({| written := zerolog.log (logger o) lvl err (encode_pairs fields ∅) msg;
            ended := e |}, σ).
Proof.
  intros Hz. unfold emit. unfold_M. by rewrite Hz, convertFields_encode_pairs.
Qed.

Lemma log_is_Some l lvl err fieldMap msg :
  is_Some (zerolog.log l lvl err fieldMap msg) ↔ (zerolog.level l ≤ lvl)%Z.
Proof.
  unfold zerolog.log, zerolog.should.
  destruct (Z.leb_spec (zerolog.level l) lvl) as [Hle|Hgt].
  - split; [done|]. intros _. eauto.
  - split; [by intros [ev ?]|lia].
Qed.

(** *** The claims about the facade *)

(** C5.  [createWriter] has three outcomes and no other, selected by
    the format after [strings.ToLower]: for [json] the sink itself and
    no error; for [console] a console writer around the sink with the
    given timestamp format, whose colouring is off exactly when
    [NO_COLOR] is not empty, and no error; for anything else no writer
    and [ErrInvalidLogFormat]. *)
Theorem createWriter_outcomes (os : OS) (format : string) (out : Writer)
    (timeFormat : string) :
  (ToLower format = "json" ∧
   createWriter os format out timeFormat = (Some out, None))
  ∨ (ToLower format = "console" ∧
     ((Getenv os "NO_COLOR" = "" ∧
       createWriter os format out timeFormat
       = (Some (ConsoleWriter out timeFormat false), None))
      ∨ (Getenv os "NO_COLOR" ≠ "" ∧
         createWriter os format out timeFormat
         = (Some (ConsoleWriter out timeFormat true), None))))
  ∨ (ToLower format ≠ "json" ∧ ToLower format ≠ "console" ∧
     createWriter os format out timeFormat = (None, Some ErrInvalidLogFormat)).
Proof.
  destruct (createWriter_cases os format out timeFormat)
    as [?|[[Hc Hw]|?]]; [by left| |by right; right].
  right. left. split; [done|]. rewrite Hw.
  destruct (String.eqb_spec (Getenv os "NO_COLOR") ""); [by left|by right].
Qed.

(** C2.  [SetLevel] on a live facade returns, and returns
    [ErrInvalidLogLevel] exactly when the level string does not parse;
    then the state is unchanged.  When it parses, no error is returned
    and the receiver's engine handle has the parsed level as its
    minimum level, with the writer, attached fields and timestamping it
    had: every emit method of the receiver now hands the engine a record
    exactly when its level is at least the parsed level.  Nothing else
    changes: the configurations, the engine's time format and every
    other facade object are as before, in particular a facade derived
    from the receiver by [WithFields] and the one the receiver was
    derived from. *)
Theorem SetLevel_spec (z : loc) (level : string) (σ : heap) (o : ZeroLogger) :
  objs σ !! z = Some o →
  ∃ r σ',
    SetLevel z level σ = Ret (r, σ') ∧
    (r = Some ErrInvalidLogLevel ↔ ParseLevel (ToLower level) = None) ∧
    (ParseLevel (ToLower level) = None → σ' = σ) ∧
    (∀ logLevel, ParseLevel (ToLower level) = Some logLevel →
       r = None ∧
       objs σ' !! z = Some {| logger := zerolog.Logger_Level (logger o) logLevel;
                              cfg := cfg o |} ∧
       ∃ o',
         objs σ' !! z = Some o' ∧
         zerolog.level (logger o') = logLevel ∧
         zerolog.w (logger o') = zerolog.w (logger o) ∧
         zerolog.context (logger o') = zerolog.context (logger o) ∧
         zerolog.timestamp (logger o') = zerolog.timestamp (logger o) ∧
         cfg o' = cfg o ∧
         ∀ lvl e err msg fields,
           ∃ em,
             emit lvl e z err msg fields σ' = Ret (em, σ') ∧
             ended em = e ∧
             (is_Some (written em) ↔ (logLevel ≤ lvl)%Z)) ∧
    cfgs σ' = cfgs σ ∧
    TimeFieldFormat σ' = TimeFieldFormat σ ∧
    (∀ z', z' ≠ z → objs σ' !! z' = objs σ !! z') ∧
    (∀ fields σ0 child,
       WithFields z fields σ0 = Ret (child, σ) →
       objs σ' !! child = objs σ !! child) ∧
    (∀ fields σ0 parent,
       WithFields parent fields σ0 = Ret (z, σ) →
       objs σ' !! parent = objs σ !! parent).
Proof.
  intros Hz. destruct (ParseLevel (ToLower level)) as [logLevel|] eqn:Hp.
  - eexists _, _. split; [by apply SetLevel_succeeds|]. simpl.
    assert (Hframe : ∀ z', z' ≠ z →
      <[z := {| logger := zerolog.Logger_Level (logger o) logLevel;
                cfg := cfg o |}]> (objs σ) !! z' = objs σ !! z').
    { intros z' Hne. by rewrite list_lookup_insert_ne. }
    assert (Hnew : <[z := {| logger := zerolog.Logger_Level (logger o) logLevel;
                             cfg := cfg o |}]> (objs σ) !! z
                   = Some {| logger := zerolog.Logger_Level (logger o) logLevel;
                             cfg := cfg o |}).
    { apply list_lookup_insert_eq. by eapply lookup_lt_Some. }
    split_and!; try done.
    + intros l [= <-]. split; [done|]. split; [exact Hnew|].
      eexists. split; [exact Hnew|]. split_and!; try reflexivity.
      intros lvl e err msg fields. eexists. split_and!.
      * by apply emit_returns.
      * reflexivity.
      * simpl. by rewrite log_is_Some.
    + intros fields σ0 child Hwf. apply Hframe.
      apply WithFields_inv in Hwf as (? & ? & ? & ? & ? & ?). done.
    + intros fields σ0 parent Hwf. apply Hframe.
      apply WithFields_inv in Hwf as (? & ? & ? & ? & ? & ?). done.
  - eexists _, _. split; [by apply SetLevel_fails|]. split_and!; done.
Qed.

(** C3.  [SetLogFormat] on a live facade: when [createWriter] rejects
    the format it returns [ErrInvalidLogFormat] and changes nothing,
    neither the recorded format nor the engine handle; otherwise it
    returns no error, the engine handle now outputs to the writer
    [createWriter] builds from the stored sink and timestamp format
    (keeping its level and fields), and the recorded format is the one
    given. *)
Theorem SetLogFormat_spec (os : OS) (z : loc) (format : string) (σ : heap)
    (o : ZeroLogger) (c : config) :
  objs σ !! z = Some o →
  cfgs σ !! cfg o = Some c →
  (snd (createWriter os format (out c) (timeFormat c)) ≠ None →
   SetLogFormat os z format σ = Ret (Some ErrInvalidLogFormat, σ))
  ∧ (snd (createWriter os format (out c) (timeFormat c)) = None →
     ∃ outWriter σ',
       createWriter os format (out c) (timeFormat c) = (Some outWriter, None) ∧
       SetLogFormat os z format σ = Ret (None, σ') ∧
       objs σ' !! z = Some {| logger := zerolog.Output (logger o) (Some outWriter);
                              cfg := cfg o |} ∧
       zerolog.w (zerolog.Output (logger o) (Some outWriter)) = outWriter ∧
       config_of σ' z = Some {| level := level c; logFormat := format;
                                timeFormat := timeFormat c; out := out c |}).
Proof.
  intros Hz Hc.
  destruct (createWriter os format (out c) (timeFormat c)) as [w err] eqn:Hw.
  split; simpl.
  - destruct err as [err|]; [intros _|done]. by eapply SetLogFormat_fails.
  - intros ->.
    destruct (createWriter_cases os format (out c) (timeFormat c))
      as [[_ Hw']|[[_ Hw']|(_ & _ & Hw')]]; rewrite Hw' in Hw; simplify_eq;
      (eexists _, _; split; [done|]; split;
        [by eapply SetLogFormat_succeeds; [done|done|rewrite Hw']|]);
      unfold config_of; simpl;
      (rewrite list_lookup_insert_eq by (by eapply lookup_lt_Some)); simpl;
      (rewrite list_lookup_insert_eq by (by eapply lookup_lt_Some)); done.
Qed.

(** C4 (amended).  A successful [SetLogFormat] on a facade leaves every
    other facade object as it was (engine handle: writer, level and
    fields; and configuration pointer), and every other configuration.
    In the configuration the receiver points to it replaces the
    recorded format and nothing else, and every facade that points to
    the same configuration now reads the new format there; a facade
    derived from the receiver by [WithFields], or the one the receiver
    was derived from, is such a facade. *)
Theorem SetLogFormat_frame (os : OS) (z : loc) (format : string) (σ σ' : heap)
    (o : ZeroLogger) (c : config) :
  objs σ !! z = Some o →
  cfgs σ !! cfg o = Some c →
  SetLogFormat os z format σ = Ret (None, σ') →
  let c' := {| level := level c; logFormat := format;
               timeFormat := timeFormat c; out := out c |} in
  (∀ z', z' ≠ z → objs σ' !! z' = objs σ !! z') ∧
  (∀ a, a ≠ cfg o → cfgs σ' !! a = cfgs σ !! a) ∧
  cfgs σ' !! cfg o = Some c' ∧
  (∀ z' o', objs σ !! z' = Some o' → cfg o' = cfg o → config_of σ' z' = Some c') ∧
  (∀ fields σ0 child,
     WithFields z fields σ0 = Ret (child, σ) →
     objs σ' !! child = objs σ !! child ∧ config_of σ' child = Some c') ∧
  (∀ fields σ0 parent,
     WithFields parent fields σ0 = Ret (z, σ) →
     objs σ' !! parent = objs σ !! parent ∧ config_of σ' parent = Some c').
Proof.
  intros Hz Hc Hset c'.
  destruct (createWriter os format (out c) (timeFormat c)) as [w [err|]] eqn:Hw.
  { rewrite (SetLogFormat_fails _ _ _ _ _ _ _ _ Hz Hc Hw) in Hset. done. }
  rewrite (SetLogFormat_succeeds _ _ _ _ _ _ _ Hz Hc Hw) in Hset.
  injection Hset as <-. simpl.
  assert (Hobjs : ∀ z', z' ≠ z →
    <[z := {| logger := zerolog.Output (logger o) w; cfg := cfg o |}]> (objs σ) !! z'
    = objs σ !! z').
  { intros z' Hne. by rewrite list_lookup_insert_ne. }
  assert (Hcfg : <[cfg o := c']> (cfgs σ) !! cfg o = Some c').
  { apply list_lookup_insert_eq. by eapply lookup_lt_Some. }
  assert (Hshare : ∀ z' o', objs σ !! z' = Some o' → cfg o' = cfg o →
    config_of {| objs := <[z := {| logger := zerolog.Output (logger o) w;
                                   cfg := cfg o |}]> (objs σ);
                 cfgs := <[cfg o := c']> (cfgs σ);
                 TimeFieldFormat := TimeFieldFormat σ |} z' = Some c').
  { intros z' o' Hz' Hsame. unfold config_of. simpl.
    destruct (decide (z' = z)) as [->|Hne].
    - rewrite list_lookup_insert_eq by (by eapply lookup_lt_Some). done.
    - rewrite Hobjs, Hz' by done. simpl. by rewrite Hsame. }
  split_and!; try done.
  - intros a Hne. by rewrite list_lookup_insert_ne.
  - intros fields σ0 child Hwf.
    apply WithFields_inv in Hwf as (o0 & fm & Hz0 & -> & Hne & Hobj & _).
    split; [by apply Hobjs|].
    assert (o0 = o) as ->.
    { pose proof (lookup_app_l_Some _ [{| logger := zerolog.With_Fields (logger o0) fm;
                                            cfg := cfg o0 |}] _ _ Hz0) as Hz1.
      rewrite <- Hobj, Hz in Hz1. by injection Hz1. }
    eapply Hshare; [rewrite Hobj; apply lookup_snoc_new|done].
  - intros fields σ0 parent Hwf.
    apply WithFields_inv in Hwf as (o0 & fm & Hz0 & -> & Hne & Hobj & _).
    split; [by apply Hobjs|].
    rewrite Hobj, lookup_snoc_new in Hz. injection Hz as <-.
    apply (Hshare parent o0); [|done]. rewrite Hobj. by apply lookup_app_l_Some.
Qed.

(** C6.  Construction layers the configuration.  Whenever the log file
    named by the environment (if any) opens and the layered format and
    level are valid, [New] returns a facade, and the configuration that
    facade points to is [layered os options]: for each field the value
    of the last option that sets it, else the environment variable
    ([LOG_LEVEL], [LOG_FORMAT], [LOG_FILE]) when it is not empty, else
    the default ([info], [json], RFC 3339, standard output). *)
Theorem New_layering (os : OS) (options : list option_) (σ : heap) :
  log_file_opens os →
  snd (createWriter os (logFormat (layered os options)) (out (layered os options))
         (timeFormat (layered os options))) = None →
  is_Some (ParseLevel (ToLower (level (layered os options)))) →
  ∃ z σ',
    New os options σ = Ret (z, σ') ∧
    config_of σ' z = Some (layered os options) ∧
    layered os [] = foldl apply_option defaults
                      ((if String.eqb (Getenv os "LOG_LEVEL") "" then []
                        else [WithLevel (Getenv os "LOG_LEVEL")]) ++
                       (if String.eqb (Getenv os "LOG_FORMAT") "" then []
                        else [WithLogFormat (Getenv os "LOG_FORMAT")]) ++
                       (if String.eqb (Getenv os "LOG_FILE") "" then []
                        else [WithOutput (File (Getenv os "LOG_FILE"))])) ∧
    layered os options = foldl apply_option (layered os []) options.
Proof.
  intros Hopen Hw [logLevel Hl].
  destruct (createWriter os _ _ _) as [w err] eqn:Hcw. simpl in Hw. subst err.
  eexists _, _. split; [by eapply New_returns|]. split_and!.
  - unfold config_of. simpl. rewrite lookup_snoc_new. simpl.
    by rewrite lookup_snoc_new.
  - unfold layered, from_env.
    destruct (String.eqb (Getenv os "LOG_LEVEL") ""),
             (String.eqb (Getenv os "LOG_FORMAT") ""),
             (String.eqb (Getenv os "LOG_FILE") ""); reflexivity.
  - by rewrite layered_foldl.
Qed.

Lemma WithContext_returns z ctx σ o :
  objs σ !! z = Some o →
  WithContext z ctx σ = Ret (zerolog.WithContext (logger o) ctx, σ).
Proof. intros Hz. unfold WithContext. unfold_M. by rewrite Hz. Qed.

(** Binding a logger that is not disabled puts an overlay on the
    carrier, from which [zerolog.Ctx] reads the logger back. *)
Lemma zerolog_WithContext_enabled l ctx :
  zerolog.level l ≠ zerolog.Disabled →
  zerolog.WithContext l ctx
  = zerolog.WithValue ctx zerolog.ctxKey (zerolog.LoggerPtr l).
Proof.
  intros Hl. unfold zerolog.WithContext.
  destruct (zerolog.bound ctx); [done|].
  by destruct (Z.eqb_spec (zerolog.level l) zerolog.Disabled).
Qed.

Lemma zerolog_Ctx_unbound ctx :
  zerolog.bound ctx = None → zerolog.Ctx ctx = zerolog.disabledLogger.
Proof. intros Hb. unfold zerolog.Ctx. by rewrite Hb. Qed.

(** Two facades with the same engine handle emit the same. *)
Lemma emit_same_logger lvl e z z' err msg fields σ o o' :
  objs σ !! z = Some o →
  objs σ !! z' = Some o' →
  logger o = logger o' →
  emit lvl e z err msg fields σ = emit lvl e z' err msg fields σ.
Proof.
  intros Hz Hz' Hl. unfold emit. unfold_M. by rewrite Hz, Hz', Hl.
Qed.

(** C7 (amended).  For a live receiver: on a carrier that holds no
    logger [FromContext] returns a new facade with the receiver's engine
    handle and configuration.  For a live originating facade whose
    level is not [Disabled]: [WithContext] changes no state and returns
    an overlay on the carrier it was given, which stays as it was; and
    [FromContext] on that overlay returns a new facade with the
    originating facade's engine handle and the receiver's
    configuration, so that each emit method yields on it what it yields
    on the originating facade. *)
Theorem FromContext_WithContext (receiver : loc) (ctx : zerolog.Carrier)
    (σ : heap) (r : ZeroLogger) :
  objs σ !! receiver = Some r →
  (zerolog.bound ctx = None →
   ∃ f σ',
     FromContext receiver ctx σ = Ret (f, σ') ∧
     objs σ' !! f = Some {| logger := logger r; cfg := cfg r |})
  ∧ (∀ origin o,
       objs σ !! origin = Some o →
       zerolog.level (logger o) ≠ zerolog.Disabled →
       ∃ ctx' f σ',
         WithContext origin ctx σ = Ret (ctx', σ) ∧
         ctx' = zerolog.WithValue ctx zerolog.ctxKey (zerolog.LoggerPtr (logger o)) ∧
         FromContext receiver ctx' σ = Ret (f, σ') ∧
         objs σ' !! f = Some {| logger := logger o; cfg := cfg r |} ∧
         ∀ lvl e err msg fields,
           emit lvl e f err msg fields σ' = emit lvl e origin err msg fields σ').
Proof.
  intros Hr. split.
  - intros Hb. eexists _, _. split.
    + apply FromContext_fallback; [done|]. by rewrite zerolog_Ctx_unbound.
    + simpl. apply lookup_snoc_new.
  - intros origin o Ho Hl. eexists _, _, _.
    split; [by apply WithContext_returns|].
    split; [by apply zerolog_WithContext_enabled|].
    rewrite zerolog_WithContext_enabled by done.
    split; [by apply FromContext_retrieves|]. simpl.
    split; [apply lookup_snoc_new|].
    intros lvl e err msg fields.
    eapply emit_same_logger; simpl;
      [apply lookup_snoc_new|by apply lookup_app_l_Some|done].
Qed.

(** C10.  When the carrier holds a logger whose level is [Disabled],
    [FromContext] on a live receiver returns a new facade with the
    receiver's own engine handle and configuration, and it returns the
    same facade in the same state as for any carrier that holds no
    logger. *)
Theorem FromContext_disabled_binding (z : loc) (ctx : zerolog.Carrier)
    (σ : heap) (o : ZeroLogger) (l : zerolog.Logger) :
  objs σ !! z = Some o →
  zerolog.bound ctx = Some l →
  zerolog.level l = zerolog.Disabled →
  ∃ f σ',
    FromContext z ctx σ = Ret (f, σ') ∧
    objs σ' !! f = Some {| logger := logger o; cfg := cfg o |} ∧
    ∀ ctx0, zerolog.bound ctx0 = None → FromContext z ctx0 σ = Ret (f, σ').
Proof.
  intros Hz Hb Hl. eexists _, _. split_and!.
  - apply FromContext_fallback; [done|]. unfold zerolog.Ctx. by rewrite Hb.
  - simpl. apply lookup_snoc_new.
  - intros ctx0 Hb0. apply FromContext_fallback; [done|].
    by rewrite zerolog_Ctx_unbound.
Qed.

(** A call other than [SetLogFormat] to [console] does the same in any
    two process states, and that one too when the two agree on whether
    [NO_COLOR] is set. *)
Lemma run_same_process_state (os1 os2 : OS) (z : loc) (c : call) (σ : heap) :
  ¬ builds_console c ∨ same_no_color os1 os2 →
  run os1 z c σ = run os2 z c σ.
Proof.
  intros Hc. destruct c; try reflexivity. simpl.
  unfold fmap, M_fmap. f_equal.
  unfold SetLogFormat. unfold_M.
  destruct (objs σ !! z) as [o|]; [|done].
  destruct (cfgs σ !! cfg o) as [c|]; [|done].
  assert (createWriter os1 format (out c) (timeFormat c)
          = createWriter os2 format (out c) (timeFormat c)) as ->; [|done].
  destruct Hc as [Hc|Hc]; [|by apply createWriter_same_no_color].
  simpl in Hc. unfold createWriter.
  destruct (String.eqb _ LogFormatJSON); [done|].
  by destruct (String.eqb_spec (ToLower format) LogFormatConsole).
Qed.

(** A call that replies with a record is an emit call on a live facade,
    and the record goes to the writer of that facade. *)
Lemma run_Emitted_inv os z c σ em σ' :
  run os z c σ = Ret (Emitted em, σ') →
  is_emit c ∧
  ∃ o, objs σ !! z = Some o ∧
       ∀ ev, written em = Some ev → zerolog.ev_out ev = zerolog.w (logger o).
Proof.
  assert (Hemit : ∀ lvl e err msg fields,
    (Emitted <$> emit lvl e z err msg fields) σ = Ret (Emitted em, σ') →
    ∃ o, objs σ !! z = Some o ∧
         ∀ ev, written em = Some ev → zerolog.ev_out ev = zerolog.w (logger o)).
  { intros lvl e err msg fields Hrun.
    destruct (objs σ !! z) as [o|] eqn:Hz.
    - unfold fmap, M_fmap in Hrun. rewrite (emit_returns _ _ _ _ _ _ _ _ Hz) in Hrun.
      injection Hrun as <- <-. exists o. split; [done|]. simpl.
      unfold zerolog.log. destruct (zerolog.should _ _); [|done].
      by intros ev [= <-].
    - revert Hrun. unfold fmap, M_fmap, emit. unfold_M. by rewrite Hz. }
  intros Hrun. destruct c; simpl in Hrun;
    try (split; [done|]; by eapply Hemit);
    unfold fmap, M_fmap in Hrun;
    match type of Hrun with
    | match ?m with _ => _ end = _ => destruct m as [[a σ0]|]; done
    end.
Qed.

Lemma colours_same_no_color os1 os2 w :
  same_no_color os1 os2 → colours os1 w = colours os2 w.
Proof.
  intros Hsame. destruct w; try done. simpl. f_equal.
  destruct (String.eqb_spec (Getenv os1 "NO_COLOR") ""),
           (String.eqb_spec (Getenv os2 "NO_COLOR") "");
    try done; destruct Hsame; tauto.
Qed.

(** C8 (amended).  After construction [LOG_LEVEL], [LOG_FORMAT] and
    [LOG_FILE] are never read again, but [NO_COLOR] is: by
    [SetLogFormat] when the format lower-cases to [console], and by the
    console writer each time an emit method writes through it.  A call
    that does neither gives the same reply, state and rendered record in
    any two process states; every call does when the two process states
    agree on whether [NO_COLOR] is set. *)
Theorem observe_process_state (os1 os2 : OS) (z : loc) (c : call) (σ : heap) :
  ¬ reads_no_color σ z c ∨ same_no_color os1 os2 →
  observe os1 z c σ = observe os2 z c σ.
Proof.
  intros Hc. unfold observe.
  assert (Hrun : run os1 z c σ = run os2 z c σ).
  { apply run_same_process_state. destruct Hc as [Hc|Hc]; [left|by right].
    intros Hb. apply Hc. by left. }
  unfold fmap at 1 3. unfold M_fmap. rewrite Hrun.
  destruct (run os2 z c σ) as [[r σ']|] eqn:Hr; [|done].
  do 3 f_equal. destruct r as [em| | |]; try done.
  destruct (written em) as [ev|] eqn:Hev; [|done]. simpl.
  unfold render. do 2 f_equal.
  destruct Hc as [Hc|Hc]; [|by apply colours_same_no_color].
  apply run_Emitted_inv in Hr as (Hem & o & Hz & Hout).
  rewrite (Hout ev Hev).
  destruct (zerolog.w (logger o)) as [| | | |Out TimeFormat NoColor] eqn:Hw; try done.
  destruct Hc. right. split; [done|]. by exists o, Out, TimeFormat, NoColor.
Qed.

(** Three format changes ending in [json] leave the engine handle on
    the stored sink, with its level and fields. *)
Lemma SetLogFormat_thrice os1 os2 os3 z f1 f2 f3 σ o c :
  objs σ !! z = Some o →
  cfgs σ !! cfg o = Some c →
  ToLower f1 = "json" → ToLower f2 = "console" → ToLower f3 = "json" →
  ∃ σ2 σ3,
    SetLogFormat os1 z f1 σ = Ret (None, σ2) ∧
    SetLogFormat os2 z f2 σ2 = Ret (None, σ3) ∧
    SetLogFormat os3 z f3 σ3
    = Ret (None,
           {| objs := <[z := {| logger := zerolog.Output (logger o) (Some (out c));
                                cfg := cfg o |}]> (objs σ);
              cfgs := <[cfg o := {| level := level c; logFormat := f3;
                                    timeFormat := timeFormat c; out := out c |}]>
                        (cfgs σ);
              TimeFieldFormat := TimeFieldFormat σ |}).
Proof.
  intros Hz Hc H1 H2 H3.
  pose proof (lookup_lt_Some _ _ _ Hz) as Hzlt.
  pose proof (lookup_lt_Some _ _ _ Hc) as Hclt.
  set (cw := ConsoleWriter (out c) (timeFormat c)
               (negb (String.eqb (Getenv os2 "NO_COLOR") ""))).
  set (o1 := {| logger := zerolog.Output (logger o) (Some (out c)); cfg := cfg o |}).
  set (o2 := {| logger := zerolog.Output (logger o1) (Some cw); cfg := cfg o |}).
  set (c1 := {| level := level c; logFormat := f1; timeFormat := timeFormat c;
                out := out c |}).
  set (c2 := {| level := level c; logFormat := f2; timeFormat := timeFormat c;
                out := out c |}).
  set (σ2 := {| objs := <[z := o1]> (objs σ); cfgs := <[cfg o := c1]> (cfgs σ);
                TimeFieldFormat := TimeFieldFormat σ |}).
  set (σ3 := {| objs := <[z := o2]> (objs σ2); cfgs := <[cfg o := c2]> (cfgs σ2);
                TimeFieldFormat := TimeFieldFormat σ |}).
  assert (Hz2 : objs σ2 !! z = Some o1) by by apply list_lookup_insert_eq.
  assert (Hc2 : cfgs σ2 !! cfg o1 = Some c1) by by apply list_lookup_insert_eq.
  assert (Hz3 : objs σ3 !! z = Some o2).
  { apply list_lookup_insert_eq. simpl. by rewrite length_insert. }
  assert (Hc3 : cfgs σ3 !! cfg o2 = Some c2).
  { apply list_lookup_insert_eq. simpl. by rewrite length_insert. }
  exists σ2, σ3. split_and!.
  - by rewrite (SetLogFormat_succeeds os1 z f1 σ o c (Some (out c)) Hz Hc
                  (createWriter_json _ _ _ _ H1)).
  - by rewrite (SetLogFormat_succeeds os2 z f2 σ2 o1 c1 (Some cw) Hz2 Hc2
                  (createWriter_console _ _ _ _ H2)).
  - rewrite (SetLogFormat_succeeds os3 z f3 σ3 o2 c2 (Some (out c)) Hz3 Hc3
                  (createWriter_json _ _ _ _ H3)).
    simpl. by rewrite !list_insert_insert_eq.
Qed.

(** C9.  On a facade that [New] has just returned, setting the format
    to [json], then [console], then [json] again succeeds three times
    (whatever the process state at each call) and ends in the very
    state in which [New] returns the same facade when the [json] format
    is given as a last option: same writer, level, fields and recorded
    format, hence the same output for every later call. *)
Theorem SetLogFormat_round_trip (os os1 os2 os3 : OS) (options : list option_)
    (f1 f2 f3 : string) (σ σ1 : heap) (z : loc) :
  ToLower f1 = "json" → ToLower f2 = "console" → ToLower f3 = "json" →
  New os options σ = Ret (z, σ1) →
  ∃ σ2 σ3 σ4,
    SetLogFormat os1 z f1 σ1 = Ret (None, σ2) ∧
    SetLogFormat os2 z f2 σ2 = Ret (None, σ3) ∧
    SetLogFormat os3 z f3 σ3 = Ret (None, σ4) ∧
    New os (options ++ [WithLogFormat f3]) σ = Ret (z, σ4).
Proof.
  intros H1 H2 H3 Hnew.
  destruct (New_inv _ _ _ _ _ Hnew) as (Hopen & w & logLevel & Hw & Hl).
  rewrite (New_returns _ _ _ _ _ Hopen Hw Hl) in Hnew.
  injection Hnew as <- <-.
  set (c := layered os options) in *.
  set (o := {| logger := zerolog.Logger_Level
                           (zerolog.With_Timestamp (zerolog.New w)) logLevel;
               cfg := length (cfgs σ) |}).
  destruct (SetLogFormat_thrice os1 os2 os3 (length (objs σ)) f1 f2 f3
              {| objs := objs σ ++ [o]; cfgs := cfgs σ ++ [c];
                 TimeFieldFormat := timeFormat c |} o c)
    as (σ2 & σ3 & Hs1 & Hs2 & Hs3); simpl; try done; try apply lookup_snoc_new.
  exists σ2, σ3. eexists. split_and!; [done|done|exact Hs3|].
  simpl. rewrite !insert_snoc_new.
  assert (Hc' : layered os (options ++ [WithLogFormat f3])
                = {| level := level c; logFormat := f3;
                     timeFormat := timeFormat c; out := out c |}).
  { unfold layered. rewrite !last_set_app. simpl. reflexivity. }
  erewrite New_returns; [|done| |].
  - rewrite Hc'. simpl. reflexivity.
  - rewrite Hc'. simpl. by apply createWriter_json.
  - rewrite Hc'. simpl. exact Hl.
Qed.

End FacadeProperties.

(** ** The facade at work *)

Section Examples.

#[local] Existing Instance sample_imports.

Example convertFields_sample :
  convertFields [AString "a"; AInt 1; AInt 7; AInt 8; AString "a"; AInt 2; AString "b"]
  = Ret (<["a" := AInt 2]> ∅).
Proof. vm_compute. reflexivity. Qed.

Example New_sample : New plain_os [] empty_heap = Ret (0, sample_heap).
Proof. reflexivity. Qed.

Example WithFields_sample : WithFields 0 [] sample_heap = Ret (1, derived_heap).
Proof. vm_compute. reflexivity. Qed.

(** With [LOG_LEVEL=warn] and no level option, [Info] writes nothing
    and [Warn] writes. *)
Example LOG_LEVEL_warn :
  ∃ σ ev,
    New warn_env_os [] empty_heap = Ret (0, σ) ∧
    Info 0 "m" [] σ = Ret ({| written := None; ended := Returns |}, σ) ∧
    Warn 0 "m" [] σ = Ret ({| written := Some ev; ended := Returns |}, σ).
Proof. eexists _, _. split_and!; vm_compute; reflexivity. Qed.

(** A facade derived with the field [app: x] writes it with each record;
    the facade it was derived from does not. *)
Example WithFields_attaches :
  ∃ σ ev ev',
    (z ← New plain_os []; WithFields z [AString "app"; AString "x"]) empty_heap
    = Ret (1, σ) ∧
    Info 1 "m" [] σ = Ret ({| written := Some ev; ended := Returns |}, σ) ∧
    zerolog.ev_context ev = [{["app" := AString "x"]}] ∧
    Info 0 "m" [] σ = Ret ({| written := Some ev'; ended := Returns |}, σ) ∧
    zerolog.ev_context ev' = [].
Proof. eexists _, _, _. split_and!; vm_compute; reflexivity. Qed.

(** On a console pipeline the same emit call renders with colours or
    without, by the [NO_COLOR] of the moment of the write. *)
Example emit_reads_NO_COLOR :
  ∃ r ev,
    observe plain_os 0 (CallInfo "m" []) console_heap
    = Ret ((r, Some {| record := ev; coloured := true |}), console_heap) ∧
    observe no_color_os 0 (CallInfo "m" []) console_heap
    = Ret ((r, Some {| record := ev; coloured := false |}), console_heap).
Proof. eexists _, _. split; vm_compute; reflexivity. Qed.

(** The format is matched after lower-casing. *)
Example createWriter_upper_case :
  createWriter plain_os "JSON" Stdout RFC3339 = (Some Stdout, None).
Proof. reflexivity. Qed.

(** *** Witnesses *)

Lemma SetLevel_spec_witness :
  objs sample_heap !! 0 = Some sample_facade ∧
  SetLevel 0 "bogus" sample_heap = Ret (Some ErrInvalidLogLevel, sample_heap) ∧
  ∃ σ' o' quiet loud,
    SetLevel 0 "WARN" sample_heap = Ret (None, σ') ∧
    objs σ' !! 0 = Some o' ∧
    zerolog.level (logger o') = zerolog.WarnLevel ∧
    Info 0 "m" [] σ' = Ret (quiet, σ') ∧ written quiet = None ∧
    Warn 0 "m" [] σ' = Ret (loud, σ') ∧ is_Some (written loud).
Proof.
  assert (Hz : objs sample_heap !! 0 = Some sample_facade) by reflexivity.
  split; [exact Hz|]. split.
  - destruct (SetLevel_spec 0 "bogus" sample_heap sample_facade Hz)
      as (r & σ' & Hrun & Herr & Hsame & _).
    rewrite Hrun. rewrite (Hsame eq_refl). rewrite (proj2 Herr eq_refl).
    reflexivity.
  - destruct (SetLevel_spec 0 "WARN" sample_heap sample_facade Hz)
      as (r & σ' & Hrun & _ & _ & Hok & _).
    assert (Hparse : ParseLevel (ToLower "WARN") = Some zerolog.WarnLevel)
      by reflexivity.
    destruct (Hok zerolog.WarnLevel Hparse)
      as (-> & _ & o' & Ho' & Hlevel & _ & _ & _ & _ & Hgate).
    destruct (Hgate zerolog.InfoLevel Returns None "m" []) as (quiet & Hq & _ & Hqw).
    destruct (Hgate zerolog.WarnLevel Returns None "m" []) as (loud & Hl & _ & Hlw).
    exists σ', o', quiet, loud. split_and!; try done.
    + destruct (written quiet) as [ev|] eqn:Hev; [|done].
      assert (zerolog.WarnLevel ≤ zerolog.InfoLevel)%Z as Hle
        by (apply Hqw; eauto).
      vm_compute in Hle. by destruct Hle.
    + apply Hlw. vm_compute. discriminate.
Defined.

Lemma SetLogFormat_spec_witness :
  objs sample_heap !! 0 = Some sample_facade ∧
  cfgs sample_heap !! cfg sample_facade = Some defaults ∧
  SetLogFormat plain_os 0 "yaml" sample_heap
  = Ret (Some ErrInvalidLogFormat, sample_heap).
Proof.
  assert (Hz : objs sample_heap !! 0 = Some sample_facade) by reflexivity.
  assert (Hc : cfgs sample_heap !! cfg sample_facade = Some defaults) by reflexivity.
  split; [exact Hz|]. split; [exact Hc|].
  apply (SetLogFormat_spec plain_os 0 "yaml" sample_heap sample_facade defaults Hz Hc).
  vm_compute. discriminate.
Defined.

Lemma SetLogFormat_frame_witness :
  SetLogFormat plain_os 0 "console" derived_heap = Ret (None, console_heap) ∧
  objs console_heap !! 1 = objs derived_heap !! 1 ∧
  config_of derived_heap 1 = Some defaults ∧
  config_of console_heap 1 = Some console_config.
Proof.
  assert (Hz : objs derived_heap !! 0 = Some sample_facade) by reflexivity.
  assert (Hc : cfgs derived_heap !! cfg sample_facade = Some defaults) by reflexivity.
  assert (Hrun : SetLogFormat plain_os 0 "console" derived_heap
                 = Ret (None, console_heap)) by reflexivity.
  split; [exact Hrun|].
  destruct (SetLogFormat_frame plain_os 0 "console" derived_heap console_heap
              sample_facade defaults Hz Hc Hrun)
    as (Hobjs & _ & _ & Hshare & _).
  split; [apply Hobjs; discriminate|]. split; [reflexivity|].
  apply (Hshare 1 derived_facade); reflexivity.
Defined.

Lemma New_layering_witness :
  log_file_opens warn_env_os ∧
  ∃ z σ',
    New warn_env_os [WithLogFormat "yaml"; WithLogFormat "Console"] empty_heap
    = Ret (z, σ') ∧
    config_of σ' z
    = Some {| level := "warn"; logFormat := "Console"; timeFormat := RFC3339;
              out := Stdout |}.
Proof.
  assert (Hopen : log_file_opens warn_env_os) by (left; reflexivity).
  split; [exact Hopen|].
  destruct (New_layering warn_env_os [WithLogFormat "yaml"; WithLogFormat "Console"]
              empty_heap Hopen)
    as (z & σ' & Hnew & Hcfg & _);
    [reflexivity|exists zerolog.WarnLevel; reflexivity|].
  exists z, σ'. split; [exact Hnew|exact Hcfg].
Defined.

Lemma FromContext_WithContext_witness :
  objs sample_heap !! 0 = Some sample_facade ∧
  ∃ ctx' f σ',
    WithContext 0 zerolog.Background sample_heap = Ret (ctx', sample_heap) ∧
    FromContext 0 ctx' sample_heap = Ret (f, σ') ∧
    objs σ' !! f = Some sample_facade.
Proof.
  assert (Hz : objs sample_heap !! 0 = Some sample_facade) by reflexivity.
  split; [exact Hz|].
  destruct (FromContext_WithContext 0 zerolog.Background sample_heap sample_facade
              Hz) as [_ Hbound].
  destruct (Hbound 0 sample_facade Hz)
    as (ctx' & f & σ' & Hwith & _ & Hfrom & Hobj & _);
    [vm_compute; discriminate|].
  exists ctx', f, σ'. split; [exact Hwith|]. split; [exact Hfrom|exact Hobj].
Defined.

Lemma FromContext_disabled_binding_witness :
  zerolog.bound rebound_carrier
  = Some (zerolog.Logger_Level sample_logger zerolog.Disabled) ∧
  ∃ f σ',
    FromContext 0 rebound_carrier sample_heap = Ret (f, σ') ∧
    objs σ' !! f = Some sample_facade ∧
    FromContext 0 zerolog.Background sample_heap = Ret (f, σ').
Proof.
  assert (Hb : zerolog.bound rebound_carrier
               = Some (zerolog.Logger_Level sample_logger zerolog.Disabled))
    by reflexivity.
  split; [exact Hb|].
  destruct (FromContext_disabled_binding 0 rebound_carrier sample_heap sample_facade
              (zerolog.Logger_Level sample_logger zerolog.Disabled))
    as (f & σ' & Hfrom & Hobj & Hnone); [reflexivity|exact Hb|reflexivity|].
  exists f, σ'. split; [exact Hfrom|]. split; [exact Hobj|].
  apply Hnone. reflexivity.
Defined.

Lemma observe_process_state_witness :
  same_no_color plain_os warn_env_os ∧
  console_pipeline console_heap 0 ∧
  observe plain_os 0 (CallInfo "m" []) console_heap
  = observe warn_env_os 0 (CallInfo "m" []) console_heap ∧
  observe plain_os 0 (CallSetLogFormat "console") console_heap
  = observe warn_env_os 0 (CallSetLogFormat "console") console_heap.
Proof.
  assert (Hsame : same_no_color plain_os warn_env_os).
  { split; intros _; reflexivity. }
  split; [exact Hsame|]. split.
  { exists {| logger := zerolog.Output sample_logger
                          (Some (ConsoleWriter Stdout RFC3339 false));
              cfg := 0 |}, Stdout, RFC3339, false.
    split; reflexivity. }
  split.
  - apply (observe_process_state plain_os warn_env_os 0 (CallInfo "m" [])
             console_heap (or_intror Hsame)).
  - apply (observe_process_state plain_os warn_env_os 0 (CallSetLogFormat "console")
             console_heap (or_intror Hsame)).
Defined.

Lemma SetLogFormat_round_trip_witness :
  New plain_os [] empty_heap = Ret (0, sample_heap) ∧
  ∃ σ2 σ3 σ4,
    SetLogFormat no_color_os 0 "json" sample_heap = Ret (None, σ2) ∧
    SetLogFormat plain_os 0 "console" σ2 = Ret (None, σ3) ∧
    SetLogFormat no_color_os 0 "JSON" σ3 = Ret (None, σ4) ∧
    New plain_os ([] ++ [WithLogFormat "JSON"]) empty_heap = Ret (0, σ4).
Proof.
  assert (Hnew : New plain_os [] empty_heap = Ret (0, sample_heap)) by reflexivity.
  split; [exact Hnew|].
  apply (SetLogFormat_round_trip plain_os no_color_os plain_os no_color_os []
           "json" "console" "JSON" empty_heap sample_heap 0);
    [reflexivity|reflexivity|reflexivity|exact Hnew].
Defined.

(** *** Counterexamples *)

(** C4, as stated, fails: after a facade is derived by [WithFields], a
    [SetLogFormat] on the parent changes the recorded format the child
    reads through the configuration they share. *)
Lemma SetLogFormat_reaches_derived :
  ∃ σ σ',
    (parent ← New plain_os []; WithFields parent []) empty_heap = Ret (1, σ) ∧
    SetLogFormat plain_os 0 "console" σ = Ret (None, σ') ∧
    logFormat <$> config_of σ 1 = Some "json" ∧
    logFormat <$> config_of σ' 1 = Some "console" ∧
    config_of σ' 1 ≠ config_of σ 1.
Proof.
  eexists _, _. split_and!; try (vm_compute; reflexivity).
  vm_compute. discriminate.
Qed.

(** C7, as stated, fails: when the originating facade is disabled, the
    facade [FromContext] returns on the carrier [WithContext] produced
    carries the receiver's engine handle, and writes a record the
    originating facade does not write. *)
Lemma FromContext_disabled_origin :
  ∃ σ ctx' f σ' ev,
    (origin ← New plain_os [WithLevel "disabled"]; New plain_os []) empty_heap
    = Ret (1, σ) ∧
    WithContext 0 zerolog.Background σ = Ret (ctx', σ) ∧
    FromContext 1 ctx' σ = Ret (f, σ') ∧
    logger <$> objs σ' !! f = logger <$> objs σ' !! 1 ∧
    logger <$> objs σ' !! f ≠ logger <$> objs σ' !! 0 ∧
    Info 0 "m" [] σ' = Ret ({| written := None; ended := Returns |}, σ') ∧
    Info f "m" [] σ' = Ret ({| written := Some ev; ended := Returns |}, σ').
Proof.
  eexists _, _, _, _, _. split_and!; try (vm_compute; reflexivity).
  vm_compute. discriminate.
Qed.

(** C8, as stated, fails: the same [SetLogFormat] call on the same
    facade in the same state builds a different writer when only the
    process environment differs, in [NO_COLOR]. *)
Lemma SetLogFormat_reads_NO_COLOR :
  ∃ σ σa σb,
    New plain_os [] empty_heap = Ret (0, σ) ∧
    SetLogFormat plain_os 0 "console" σ = Ret (None, σa) ∧
    SetLogFormat no_color_os 0 "console" σ = Ret (None, σb) ∧
    (zerolog.w ∘ logger) <$> objs σa !! 0 = Some (ConsoleWriter Stdout RFC3339 false) ∧
    (zerolog.w ∘ logger) <$> objs σb !! 0 = Some (ConsoleWriter Stdout RFC3339 true) ∧
    run plain_os 0 (CallSetLogFormat "console") σ
    ≠ run no_color_os 0 (CallSetLogFormat "console") σ.
Proof.
  eexists _, _, _. split_and!; try (vm_compute; reflexivity).
  vm_compute. discriminate.
Qed.

End Examples.

(** * Further properties *)

(** ** The field encoder, continued *)

Lemma encode_pairs_union fields : ∀ fieldMap,
  encode_pairs fields fieldMap = encode_pairs fields ∅ ∪ fieldMap.
Proof.
  induction fields as [|x|x y l IH] using pair_ind; intros fieldMap.
  - simpl. by rewrite (left_id_L ∅ (∪)).
  - assert (∀ m, encode_pairs [x] m = m) as Hone by (intros m; by destruct x).
    rewrite !Hone. by rewrite (left_id_L ∅ (∪)).
  - assert (Hcases : (∃ k, x = AString k) ∨ (∀ m, encode_pairs (x :: y :: l) m
                                                   = encode_pairs l m)).
    { destruct x; eauto. }
    destruct Hcases as [[k ->]|Hskip].
    + simpl. rewrite (IH (<[k := y]> fieldMap)), (IH (<[k := y]> ∅)).
      rewrite <- (assoc_L (∪)). f_equal.
      rewrite <- insert_union_l. by rewrite (left_id_L ∅ (∪)).
    + rewrite !Hskip. apply IH.
Qed.

Lemma encode_pairs_app xs : ∀ ys fieldMap,
  Nat.Even (length xs) →
  encode_pairs (xs ++ ys) fieldMap = encode_pairs ys (encode_pairs xs fieldMap).
Proof.
  induction xs as [|x|x y l IH] using pair_ind; intros ys fieldMap Heven.
  - reflexivity.
  - destruct Heven as [n Hn]. simpl in Hn. lia.
  - assert (Nat.Even (length l)) as Hl.
    { destruct Heven as [n Hn]. simpl in Hn. exists (n - 1)%nat. lia. }
    destruct x; simpl; by apply IH.
Qed.

Lemma encode_pairs_size fields : ∀ fieldMap,
  size (encode_pairs fields fieldMap) ≤ size fieldMap + Nat.div2 (length fields).
Proof.
  induction fields as [|x|x y l IH] using pair_ind; intros fieldMap.
  - simpl. lia.
  - assert (encode_pairs [x] fieldMap = fieldMap) as -> by by destruct x.
    simpl. lia.
  - assert (Hins : ∀ k, size (<[k := y]> fieldMap) ≤ S (size fieldMap)).
    { intros k. rewrite map_size_insert. destruct (fieldMap !! k); simpl; lia. }
    destruct x; simpl;
      try (etrans; [apply IH|]; lia).
    etrans; [apply IH|]. specialize (Hins s). lia.
Qed.

(** X1.  Encoding a concatenation: when the first part has an even
    number of elements, the pairs of the two parts are encoded
    independently and the mapping of the second part takes precedence on
    the keys the two share. *)
Theorem convertFields_app (xs ys : list any) :
  Nat.Even (length xs) →
  ∃ mx my,
    convertFields xs = Ret mx ∧
    convertFields ys = Ret my ∧
    convertFields (xs ++ ys) = Ret (my ∪ mx).
Proof.
  intros Heven. exists (encode_pairs xs ∅), (encode_pairs ys ∅).
  rewrite !convertFields_encode_pairs. split_and!; try done.
  f_equal. rewrite encode_pairs_app by done. apply encode_pairs_union.
Qed.

(** X2.  The mapping has at most one entry per pair: its size is at most
    half the length of the field sequence (the capacity the source gives
    the map). *)
Theorem convertFields_size (fields : list any) :
  ∃ fieldMap,
    convertFields fields = Ret fieldMap ∧
    size fieldMap ≤ length fields / 2.
Proof.
  exists (encode_pairs fields ∅). split; [apply convertFields_encode_pairs|].
  rewrite <- Nat.div2_div. etrans; [apply encode_pairs_size|].
  rewrite map_size_empty. lia.
Qed.

Lemma encode_pairs_is_Some fields : ∀ fieldMap key,
  is_Some (encode_pairs fields fieldMap !! key) ↔
  (∃ p v, pair_at fields p = Some (AString key, v)) ∨ is_Some (fieldMap !! key).
Proof.
  induction fields as [|x|x y l IH] using pair_ind; intros fieldMap key.
  - simpl. split; [by right|]. intros [(p & v & Hp)|?]; [|done].
    by rewrite pair_at_nil in Hp.
  - assert (encode_pairs [x] fieldMap = fieldMap) as -> by by destruct x.
    split; [by right|]. intros [(p & v & Hp)|?]; [|done].
    by rewrite pair_at_single in Hp.
  - assert (Hpairs : (∃ p v, pair_at (x :: y :: l) p = Some (AString key, v)) ↔
                     x = AString key ∨ ∃ p v, pair_at l p = Some (AString key, v)).
    { split.
      - intros ([|p] & v & Hp).
        + rewrite pair_at_head in Hp. left. congruence.
        + rewrite pair_at_tail in Hp. right. eauto.
      - intros [->|(p & v & Hp)].
        + exists 0%nat, y. apply pair_at_head.
        + exists (S p), v. by rewrite pair_at_tail. }
    rewrite Hpairs.
    assert (Hcases : (∃ k, x = AString k ∧
                encode_pairs (x :: y :: l) fieldMap = encode_pairs l (<[k := y]> fieldMap))
            ∨ ((∀ k, x ≠ AString k) ∧
                encode_pairs (x :: y :: l) fieldMap = encode_pairs l fieldMap)).
    { destruct x; eauto; right; split; done. }
    destruct Hcases as [[k [-> ->]]|[Hx ->]]; rewrite IH.
    + destruct (decide (k = key)) as [->|Hne].
      * rewrite lookup_insert_eq. split; [intros _; by left; left|]. intros _. by right.
      * rewrite lookup_insert_ne by done. split.
        -- intros [?|?]; [left; by right|by right].
        -- intros [[[= ?]|?]|?]; [done|by left|by right].
    + split.
      * intros [?|?]; [left; by right|by right].
      * intros [[?|?]|?]; [by destruct (Hx key)|by left|by right].
Qed.

(** X3.  A key is in the mapping exactly when some pair of the sequence
    has that string as its first element; so the mapping is empty
    exactly when no pair is keyed by a string (the empty sequence, a
    single element, pairs keyed by numbers). *)
Theorem convertFields_keys (fields : list any) :
  ∃ fieldMap,
    convertFields fields = Ret fieldMap ∧
    (∀ key, is_Some (fieldMap !! key) ↔
            ∃ p v, pair_at fields p = Some (AString key, v)) ∧
    (fieldMap = ∅ ↔ ∀ key, unwritten fields key).
Proof.
  exists (encode_pairs fields ∅). split; [apply convertFields_encode_pairs|].
  assert (Hkeys : ∀ key, is_Some (encode_pairs fields ∅ !! key) ↔
                         ∃ p v, pair_at fields p = Some (AString key, v)).
  { intros key. rewrite encode_pairs_is_Some. split; [|by left].
    intros [?|[v Hv]]; [done|]. by rewrite lookup_empty in Hv. }
  split; [exact Hkeys|]. rewrite map_empty. split.
  - intros Hnone key p v Hp.
    assert (is_Some (encode_pairs fields ∅ !! key)) as [v' Hv'] by (apply Hkeys; eauto).
    by rewrite Hnone in Hv'.
  - intros Hun key. apply eq_None_not_Some. intros Hsome.
    apply Hkeys in Hsome as (p & v & Hp). by destruct (Hun key p v).
Qed.

(** ** The facade, continued *)

Section FurtherFacadeProperties.

Context `{Imports}.

Lemma fmap_Ret {A B} (f : A → B) (m : M A) σ a σ' :
  m σ = Ret (a, σ') → (f <$> m) σ = Ret (f a, σ').
Proof. intros Hm. unfold fmap, M_fmap. by rewrite Hm. Qed.

Lemma fmap_Ret_inv {A B} (f : A → B) (m : M A) σ b σ' :
  (f <$> m) σ = Ret (b, σ') → ∃ a, m σ = Ret (a, σ') ∧ b = f a.
Proof.
  unfold fmap, M_fmap. destruct (m σ) as [[a σ0]|]; [|done].
  intros [= <- <-]. by exists a.
Qed.

Lemma FromContext_returns z ctx σ o :
  objs σ !! z = Some o →
  ∃ l, FromContext z ctx σ
       = Ret (length (objs σ),
              {| objs := objs σ ++ [{| logger := l; cfg := cfg o |}];
                 cfgs := cfgs σ;
                 TimeFieldFormat := TimeFieldFormat σ |}).
Proof.
  intros Hz.
  destruct (decide (zerolog.level (zerolog.Ctx ctx) = zerolog.Disabled)) as [Hd|Hd].
  - exists (logger o). by apply FromContext_fallback.
  - exists (zerolog.Ctx ctx). by apply FromContext_retrieves.
Qed.

Lemma fmap_Ret_inv_state {A B} (f : A → B) (m : M A) σ b σ' :
  (f <$> m) σ = Ret (b, σ') → ∃ a, m σ = Ret (a, σ').
Proof. intros Hm. apply fmap_Ret_inv in Hm as (a & Hm & _). by exists a. Qed.

(** What a call on a live facade with a live configuration returns, by
    kind of call. *)
Lemma run_cases os z c σ o x :
  objs σ !! z = Some o →
  cfgs σ !! cfg o = Some x →
  ∃ r σ',
    run os z c σ = Ret (r, σ') ∧
    ((σ' = σ ∧ ∀ f, r ≠ Facade f)
     ∨ (∃ l, r = Facade (length (objs σ)) ∧
             σ' = {| objs := objs σ ++ [{| logger := l; cfg := cfg o |}];
                     cfgs := cfgs σ; TimeFieldFormat := TimeFieldFormat σ |} ∧
             ¬ is_setter c ∧ ¬ is_emit c)
     ∨ (∃ l x', (∀ f, r ≠ Facade f) ∧ is_setter c ∧
                σ' = {| objs := <[z := {| logger := l; cfg := cfg o |}]> (objs σ);
                        cfgs := <[cfg o := x']> (cfgs σ);
                        TimeFieldFormat := TimeFieldFormat σ |} ∧
                ((∀ format, c ≠ CallSetLogFormat format) → x' = x))).
Proof.
  intros Hz Hx.
  assert (Hemit : ∀ lvl e err msg fields,
    ∃ r σ', (Emitted <$> emit lvl e z err msg fields) σ = Ret (r, σ') ∧
            σ' = σ ∧ ∀ f, r ≠ Facade f).
  { intros. eexists _, _. split; [by eapply fmap_Ret, emit_returns|done]. }
  destruct c; simpl;
    try (destruct (Hemit zerolog.TraceLevel Returns None msg fields)
           as (r & σ' & ? & ? & ?); exists r, σ'; split; [done|by left]);
    try (unfold Trace, Debug, Info, Warn, Error_, Fatal, Panic;
         match goal with
         | |- context [emit ?lvl ?e z ?err ?msg ?fields] =>
             destruct (Hemit lvl e err msg fields) as (r & σ' & ? & ? & ?);
             exists r, σ'; split; [done|by left]
         end).
  - destruct (WithFields_returns z fields σ o Hz) as (fm & _ & Hwf).
    eexists _, _. split; [by eapply fmap_Ret|]. right. left.
    eexists. split_and!; try done; tauto.
  - eexists _, _. split; [by eapply fmap_Ret, WithContext_returns|]. by left.
  - destruct (FromContext_returns z ctx σ o Hz) as [l Hfc].
    eexists _, _. split; [by eapply fmap_Ret|]. right. left.
    eexists. split_and!; try done; tauto.
  - destruct (ParseLevel (ToLower level0)) as [logLevel|] eqn:Hp.
    + eexists _, _. split; [by eapply fmap_Ret, SetLevel_succeeds|].
      right. right. exists (zerolog.Logger_Level (logger o) logLevel), x.
      split_and!; try done.
      by rewrite (list_insert_id (cfgs σ) _ _ Hx).
    + eexists _, _. split; [by eapply fmap_Ret, SetLevel_fails|]. by left.
  - destruct (createWriter os format (out x) (timeFormat x)) as [w [err|]] eqn:Hw.
    + eexists _, _. split; [by eapply fmap_Ret, SetLogFormat_fails|]. by left.
    + eexists _, _. split; [by eapply fmap_Ret, SetLogFormat_succeeds|].
      right. right. eexists _, _. split_and!; try done.
      intros Hno. by destruct (Hno format).
Qed.

(** A call on an address that holds no facade either panics or returns
    with the state as it was. *)
Lemma run_dead os z c σ r σ' :
  objs σ !! z = None → run os z c σ = Ret (r, σ') → σ' = σ.
Proof.
  intros Hz Hrun.
  destruct c; simpl in Hrun; apply fmap_Ret_inv_state in Hrun as [a Hrun];
    unfold Trace, Debug, Info, Warn, Error_, Fatal, Panic, emit, WithFields,
      WithContext, FromContext, SetLevel, SetLogFormat in Hrun;
    revert Hrun; unfold_M; rewrite ?Hz; try done.
  - destruct (_ =? _)%Z; unfold_M; by rewrite Hz.
  - destruct (ParseLevel _); unfold_M; rewrite ?Hz; [done|]. by intros [= ].
Qed.

(** An emit call on a live facade: the record is handed to the engine
    exactly when the method's level is not below the facade's, the state
    stays, and the call ends as its method does. *)
Lemma run_emit os z c σ o lvl :
  objs σ !! z = Some o →
  method_level c = Some lvl →
  ∃ em,
    run os z c σ = Ret (Emitted em, σ) ∧
    ended em = method_ending c ∧
    (is_Some (written em) ↔ (zerolog.level (logger o) ≤ lvl)%Z).
Proof.
  intros Hz Hlvl.
  destruct c; simpl in Hlvl; try done; injection Hlvl as <-; simpl;
    unfold Trace, Debug, Info, Warn, Error_, Fatal, Panic;
    (eexists; split; [by eapply fmap_Ret, emit_returns|]);
    (split; [reflexivity|]); simpl; apply log_is_Some.
Qed.

Lemma well_formed_lookup σ z o :
  well_formed σ → objs σ !! z = Some o → ∃ x, cfgs σ !! cfg o = Some x.
Proof.
  intros Hwf Hz. apply lookup_lt_is_Some_2. by eapply Hwf.
Qed.

(** On a well-formed heap no call on a facade panics. *)
Lemma run_returns (os : OS) (z : loc) (c : call) (σ : heap) :
  well_formed σ →
  is_Some (objs σ !! z) →
  ∃ r σ', run os z c σ = Ret (r, σ').
Proof.
  intros Hwf [o Hz]. destruct (well_formed_lookup _ _ _ Hwf Hz) as [x Hx].
  destruct (run_cases os z c σ o x Hz Hx) as (r & σ' & Hrun & _). eauto.
Qed.

Lemma run_well_formed os z c σ r σ' :
  well_formed σ → run os z c σ = Ret (r, σ') → well_formed σ'.
Proof.
  intros Hwf Hrun. destruct (objs σ !! z) as [o|] eqn:Hz.
  2: { by rewrite (run_dead _ _ _ _ _ _ Hz Hrun). }
  destruct (well_formed_lookup _ _ _ Hwf Hz) as [x Hx].
  destruct (run_cases os z c σ o x Hz Hx) as (r0 & σ0 & Hrun0 & Hcases).
  rewrite Hrun in Hrun0. injection Hrun0 as <- <-.
  destruct Hcases as [[-> Hr]|[(l & -> & -> & Hns & Hne)|(l & x' & Hr & Hset & -> & Hx')]];
    [done| |]; intros z' o' Hz'; simpl in *.
  - apply lookup_app_Some in Hz' as [Hz'|[_ Hz']]; [by eapply Hwf|].
    apply list_lookup_singleton_Some in Hz' as [_ <-]. simpl. by eapply Hwf.
  - rewrite length_insert. destruct (decide (z' = z)) as [->|Hne].
    + rewrite list_lookup_insert_eq in Hz' by (by eapply lookup_lt_Some).
      injection Hz' as <-. simpl. by eapply Hwf.
    + rewrite list_lookup_insert_ne in Hz' by done. by eapply Hwf.
Qed.

(** X4.  What a call that returns can change.  It keeps the heap
    well formed, never touches the engine's time format nor creates or
    removes a configuration, and keeps every facade alive and pointing
    to the configuration it pointed to.  Only [SetLevel] and
    [SetLogFormat] change a facade, and then only the receiver; only
    they can change a configuration; the emit methods change nothing at
    all.  A facade a call returns is a new, live address. *)
Theorem run_invariant (os : OS) (z : loc) (c : call) (σ σ' : heap) (r : reply) :
  well_formed σ →
  run os z c σ = Ret (r, σ') →
  well_formed σ' ∧
  TimeFieldFormat σ' = TimeFieldFormat σ ∧
  length (cfgs σ') = length (cfgs σ) ∧
  (∀ z' o', objs σ !! z' = Some o' →
     ∃ o'', objs σ' !! z' = Some o'' ∧ cfg o'' = cfg o' ∧
            (z' ≠ z ∨ ¬ is_setter c → o'' = o')) ∧
  (¬ is_setter c → cfgs σ' = cfgs σ) ∧
  (is_emit c → σ' = σ) ∧
  (∀ f, r = Facade f → objs σ !! f = None ∧ is_Some (objs σ' !! f)).
Proof.
  intros Hwf Hrun. split; [by eapply run_well_formed|].
  assert (Hsame : σ' = σ → (∀ f, r ≠ Facade f) →
    TimeFieldFormat σ' = TimeFieldFormat σ ∧
    length (cfgs σ') = length (cfgs σ) ∧
    (∀ z' o', objs σ !! z' = Some o' →
       ∃ o'', objs σ' !! z' = Some o'' ∧ cfg o'' = cfg o' ∧
              (z' ≠ z ∨ ¬ is_setter c → o'' = o')) ∧
    (¬ is_setter c → cfgs σ' = cfgs σ) ∧ (is_emit c → σ' = σ) ∧
    (∀ f, r = Facade f → objs σ !! f = None ∧ is_Some (objs σ' !! f))).
  { intros -> Hr. split_and!; try done; [by eauto|]. intros f ->. by destruct (Hr f). }
  destruct (objs σ !! z) as [o|] eqn:Hz.
  2: { apply Hsame; [by eapply run_dead|]. intros f ->.
       destruct c; simpl in Hrun; apply fmap_Ret_inv in Hrun as (a & Hrun & [= ]).
       - revert Hrun. unfold WithFields. unfold_M. by rewrite Hz.
       - revert Hrun. unfold FromContext.
         destruct (_ =? _)%Z; unfold_M; by rewrite Hz. }
  destruct (well_formed_lookup _ _ _ Hwf Hz) as [x Hx].
  destruct (run_cases os z c σ o x Hz Hx) as (r0 & σ0 & Hrun0 & Hcases).
  rewrite Hrun in Hrun0. injection Hrun0 as <- <-.
  destruct Hcases as [[-> Hr]|[(l & -> & -> & Hns & Hne)|(l & x' & Hr & Hset & -> & Hx')]].
  - by apply Hsame.
  - simpl. split_and!; try done.
    + intros z' o' Hz'. exists o'. split_and!; try done. by apply lookup_app_l_Some.
    + intros f [= <-]. split; [apply lookup_ge_None_2; lia|].
      rewrite lookup_snoc_new. eauto.
  - simpl. split_and!; try done.
    + apply length_insert.
    + intros z' o' Hz'. destruct (decide (z' = z)) as [->|Hne].
      * rewrite list_lookup_insert_eq by (by eapply lookup_lt_Some).
        eexists. split_and!; try done.
        -- simpl. congruence.
        -- intros [?|?]; done.
      * rewrite list_lookup_insert_ne by done. exists o'. done.
    + intros Hem. destruct c; done.
    + intros f ->. by destruct (Hr f).
Qed.

Lemma New_well_formed os options σ z σ' :
  well_formed σ → New os options σ = Ret (z, σ') → well_formed σ'.
Proof.
  intros Hwf Hnew.
  destruct (New_inv _ _ _ _ _ Hnew) as (Hopen & w & logLevel & Hw & Hl).
  rewrite (New_returns _ _ _ _ _ Hopen Hw Hl) in Hnew. injection Hnew as <- <-.
  intros z' o' Hz'. simpl in *. rewrite length_app. simpl.
  apply lookup_app_Some in Hz' as [Hz'|[_ Hz']].
  - apply Hwf in Hz'. lia.
  - apply list_lookup_singleton_Some in Hz' as [_ <-]. simpl. lia.
Qed.

Lemma perform_all_well_formed actions : ∀ σ σ',
  well_formed σ → perform_all actions σ = Ret (tt, σ') → well_formed σ'.
Proof.
  induction actions as [|a rest IH]; intros σ σ' Hwf Hrun.
  - by injection Hrun as <-.
  - simpl in Hrun. unfold mbind, M_bind in Hrun.
    destruct (perform a σ) as [[[] σ1]|] eqn:Ha; [|done].
    apply (IH σ1); [|done].
    destruct a as [os options|os z c]; simpl in Ha; unfold mbind, M_bind in Ha.
    + destruct (New os options σ) as [[z σ2]|] eqn:Hnew; [|done].
      injection Ha as <-. by eapply New_well_formed.
    + destruct (run os z c σ) as [[r σ2]|] eqn:Hcall; [|done].
      injection Ha as <-. by eapply run_well_formed.
Qed.

(** X5.  Whatever a client has done since the start of the process, by
    constructing facades (from options the four constructors return,
    around writers that are not nil) and calling methods on addresses of
    its choice (with carriers that are not nil), every facade of the
    heap points to a configuration of the heap.  So a call on a facade
    of the heap never fails inside the facade, on a nil facade or
    configuration pointer or on an index out of the range of its fields:
    each emit method runs to its own ending, the return to the caller
    for [Trace], [Debug], [Info], [Warn] and [Error], the exit of the
    process for [Fatal] and the panic for [Panic]; every other method
    returns. *)
Theorem reachable_safe (σ : heap) :
  reachable σ →
  well_formed σ ∧
  ∀ os z c,
    is_Some (objs σ !! z) →
    ∃ r σ',
      run os z c σ = Ret (r, σ') ∧
      (∀ lvl, method_level c = Some lvl →
         ∃ em, r = Emitted em ∧ ended em = method_ending c) ∧
      (method_level c = None → ∀ em, r ≠ Emitted em).
Proof.
  intros [actions Hrun].
  assert (well_formed σ) as Hwf.
  { eapply perform_all_well_formed; [|done]. intros z o Hz. done. }
  split; [done|]. intros os z c [o Hz].
  destruct (run_returns os z c σ Hwf (ex_intro _ o Hz)) as (r & σ' & Hcall).
  exists r, σ'. split; [done|]. split.
  - intros lvl Hlvl.
    destruct (run_emit os z c σ o lvl Hz Hlvl) as (em & Hem & Hend & _).
    rewrite Hem in Hcall. injection Hcall as <- <-. by exists em.
  - intros Hnone em ->.
    apply run_Emitted_inv in Hcall as [Hemit _]. by destruct c.
Qed.

(** *** Construction *)

(** X6.  [New] returns a facade exactly when the log file named by
    [LOG_FILE] (if any) opens, the layered format is one [createWriter]
    accepts and the layered level parses; in every other case it
    panics. *)
Theorem New_returns_iff (os : OS) (options : list option_) (σ : heap) :
  (∃ z σ', New os options σ = Ret (z, σ')) ↔
  log_file_opens os ∧
  snd (createWriter os (logFormat (layered os options)) (out (layered os options))
         (timeFormat (layered os options))) = None ∧
  is_Some (ParseLevel (ToLower (level (layered os options)))).
Proof.
  split.
  - intros (z & σ' & Hnew).
    destruct (New_inv _ _ _ _ _ Hnew) as (Hopen & w & logLevel & Hw & Hl).
    split; [done|]. split; [by rewrite Hw|by exists logLevel].
  - intros (Hopen & Hw & [logLevel Hl]).
    destruct (createWriter os _ _ _) as [w err] eqn:Hcw. simpl in Hw. subst err.
    eexists _, _. by eapply New_returns.
Qed.

(** X7.  When [LOG_FILE] names a file that cannot be opened, [New]
    panics with the text of the failure, whatever the options: an output
    option does not prevent the attempt to open the file. *)
Theorem New_log_file_panics (os : OS) (options : list option_) (σ : heap)
    (err : string) :
  Getenv os "LOG_FILE" ≠ "" →
  OpenFile os (Getenv os "LOG_FILE") = Some err →
  New os options σ = Panics ("failed to open log file: " +:+ err).
Proof.
  intros Hfile Hopen. unfold New. unfold mbind at 1. unfold M_bind at 1.
  assert (env_config os σ = Panics ("failed to open log file: " +:+ err)) as ->; [|done].
  unfold env_config.
  destruct (String.eqb_spec (Getenv os "LOG_FILE") ""); [done|]. simpl.
  by rewrite Hopen.
Qed.

(** X8.  When the log file opens (or none is named) and [createWriter]
    rejects the layered format, [New] panics with the format error; the
    format is checked before the level, so this is the panic also when
    the level is invalid too. *)
Theorem New_format_panics (os : OS) (options : list option_) (σ : heap) :
  log_file_opens os →
  snd (createWriter os (logFormat (layered os options)) (out (layered os options))
         (timeFormat (layered os options))) ≠ None →
  New os options σ = Panics "failed to create log writer: invalid log format".
Proof.
  intros Hopen Hw. unfold New. unfold mbind at 1. unfold M_bind at 1.
  rewrite (env_config_layered _ _ Hopen), layered_foldl.
  unfold_M. simpl.
  destruct (createWriter_cases os (logFormat (layered os options))
              (out (layered os options)) (timeFormat (layered os options)))
    as [[_ Hw']|[[_ Hw']|(_ & _ & Hw')]]; rewrite Hw' in Hw; try done.
  simpl in Hw'. by rewrite Hw'.
Qed.

(** X9.  What [New] leaves behind when it returns.  The facade is a new
    object whose engine handle writes to the writer [createWriter]
    selected, at the parsed level, with timestamps and no attached
    fields; it points to a new configuration that no earlier facade of a
    well-formed heap points to; the earlier facades and configurations
    are as they were; and the engine's process-wide time format is
    overwritten with the time format of the new configuration. *)
Theorem New_effects (os : OS) (options : list option_) (σ σ' : heap) (z : loc) :
  New os options σ = Ret (z, σ') →
  ∃ w logLevel,
    createWriter os (logFormat (layered os options)) (out (layered os options))
      (timeFormat (layered os options)) = (Some w, None) ∧
    ParseLevel (ToLower (level (layered os options))) = Some logLevel ∧
    z = length (objs σ) ∧
    objs σ' = objs σ ++
      [{| logger := {| zerolog.w := w; zerolog.level := logLevel;
                       zerolog.context := []; zerolog.timestamp := true |};
          cfg := length (cfgs σ) |}] ∧
    cfgs σ' = cfgs σ ++ [layered os options] ∧
    TimeFieldFormat σ' = timeFormat (layered os options) ∧
    (well_formed σ → ∀ z' o', objs σ !! z' = Some o' → cfg o' ≠ length (cfgs σ)).
Proof.
  intros Hnew.
  destruct (New_inv _ _ _ _ _ Hnew) as (Hopen & w & logLevel & Hw & Hl).
  rewrite (New_returns _ _ _ _ _ Hopen Hw Hl) in Hnew. injection Hnew as <- <-.
  destruct (createWriter_cases os (logFormat (layered os options))
              (out (layered os options)) (timeFormat (layered os options)))
    as [[_ Hw']|[[_ Hw']|(_ & _ & Hw')]]; rewrite Hw' in Hw; simplify_eq;
    (eexists _, logLevel; split; [exact Hw'|]; split_and!; try done;
     intros Hwf z' o' Hz' Heq; apply Hwf in Hz'; lia).
Qed.

(** *** Levels, formats and fields *)

(** X10.  After a successful [SetLevel], each of the seven emit methods
    of the receiver hands the engine a record exactly when the level of
    the method is at least the parsed level, changes no state, and ends
    as the method does, record or no record: [Trace], [Debug], [Info],
    [Warn] and [Error] return to the caller, [Fatal] ends the process
    and [Panic] panics. *)
Theorem SetLevel_gates (z : loc) (level : string) (σ : heap) (o : ZeroLogger)
    (logLevel : zerolog.Level) :
  objs σ !! z = Some o →
  ParseLevel (ToLower level) = Some logLevel →
  ∃ σ',
    SetLevel z level σ = Ret (None, σ') ∧
    ∀ os c lvl,
      method_level c = Some lvl →
      ∃ em,
        run os z c σ' = Ret (Emitted em, σ') ∧
        ended em = method_ending c ∧
        (is_Some (written em) ↔ (logLevel ≤ lvl)%Z).
Proof.
  intros Hz Hp. eexists. split; [by apply SetLevel_succeeds|].
  intros os c lvl Hlvl.
  apply (run_emit os z c _
           {| logger := zerolog.Logger_Level (logger o) logLevel; cfg := cfg o |}
           lvl); [|done].
  simpl. apply list_lookup_insert_eq. by eapply lookup_lt_Some.
Qed.

(** X11.  A successful [SetLogFormat] changes where the receiver's
    records go and nothing else about them: each emit method writes
    after the call exactly when it wrote before, the same record
    (level, message, error, fields, attached fields, timestamp) sent to
    the new writer.  In particular the level a [SetLevel] gave the
    receiver survives the format change. *)
Theorem SetLogFormat_keeps_records (os : OS) (z : loc) (format : string)
    (σ σ' : heap) (o : ZeroLogger) (c : config) :
  objs σ !! z = Some o →
  cfgs σ !! cfg o = Some c →
  SetLogFormat os z format σ = Ret (None, σ') →
  ∃ outWriter,
    createWriter os format (out c) (timeFormat c) = (Some outWriter, None) ∧
    ∀ lvl e err msg fields,
      ∃ em em',
        emit lvl e z err msg fields σ = Ret (em, σ) ∧
        emit lvl e z err msg fields σ' = Ret (em', σ') ∧
        written em' = redirect outWriter <$> written em ∧
        ended em' = ended em.
Proof.
  intros Hz Hc Hset.
  destruct (createWriter_cases os format (out c) (timeFormat c))
    as [[_ Hw]|[[_ Hw]|(_ & _ & Hw)]].
  3: { by rewrite (SetLogFormat_fails _ _ _ _ _ _ _ _ Hz Hc Hw) in Hset. }
  all: rewrite (SetLogFormat_succeeds _ _ _ _ _ _ _ Hz Hc Hw) in Hset;
    injection Hset as <-; eexists; (split; [exact Hw|]);
    intros lvl e err msg fields; eexists _, _;
    (split; [by apply emit_returns|]);
    (split; [apply emit_returns; simpl; apply list_lookup_insert_eq;
             by eapply lookup_lt_Some|]);
    simpl; unfold zerolog.log, zerolog.should; simpl;
    by destruct (zerolog.level (logger o) <=? lvl)%Z.
Qed.

(** X12.  A facade derived by [WithFields] writes exactly when the
    receiver does, the receiver's record with the encoded fields
    attached after those the receiver already carries; the receiver
    itself writes as before.  Deriving twice attaches the two field sets
    in order. *)
Theorem WithFields_records (z : loc) (fields : list any) (σ : heap)
    (o : ZeroLogger) :
  objs σ !! z = Some o →
  ∃ fieldMap child σ',
    convertFields fields = Ret fieldMap ∧
    WithFields z fields σ = Ret (child, σ') ∧
    (∀ lvl e err msg fields',
       ∃ em em',
         emit lvl e z err msg fields' σ = Ret (em, σ) ∧
         emit lvl e z err msg fields' σ' = Ret (em, σ') ∧
         emit lvl e child err msg fields' σ' = Ret (em', σ') ∧
         written em' = attach fieldMap <$> written em) ∧
    (∀ fields2 fieldMap2,
       convertFields fields2 = Ret fieldMap2 →
       ∃ child2 σ2 o2,
         WithFields child fields2 σ' = Ret (child2, σ2) ∧
         objs σ2 !! child2 = Some o2 ∧
         zerolog.context (logger o2)
         = zerolog.context (logger o) ++ [fieldMap; fieldMap2]).
Proof.
  intros Hz. destruct (WithFields_returns z fields σ o Hz) as (fm & Hfm & Hwf).
  eexists fm, _, _. split; [done|]. split; [exact Hwf|]. split.
  - intros lvl e err msg fields'. eexists _, _. split_and!.
    + by apply emit_returns.
    + apply emit_returns. simpl. by apply lookup_app_l_Some.
    + apply emit_returns. simpl. apply lookup_snoc_new.
    + simpl. unfold zerolog.log, zerolog.should. simpl.
      by destruct (zerolog.level (logger o) <=? lvl)%Z.
  - intros fields2 fm2 Hfm2.
    match type of Hwf with _ = Ret (_, ?s) => set (σ1 := s) in * end.
    destruct (WithFields_returns (length (objs σ)) fields2 σ1
                {| logger := zerolog.With_Fields (logger o) fm; cfg := cfg o |})
      as (fm2' & Hfm2' & Hwf2).
    { simpl. apply lookup_snoc_new. }
    rewrite Hfm2 in Hfm2'. injection Hfm2' as <-.
    eexists _, _, _. split; [exact Hwf2|]. split.
    + simpl. apply lookup_snoc_new.
    + simpl. by rewrite <- (assoc_L (++)).
Qed.

(** X13.  [SetLevel] twice: the second level replaces the first, and the
    state is the one the second call alone would leave. *)
Theorem SetLevel_twice (z : loc) (level1 level2 : string) (σ : heap)
    (o : ZeroLogger) :
  objs σ !! z = Some o →
  is_Some (ParseLevel (ToLower level1)) →
  is_Some (ParseLevel (ToLower level2)) →
  ∃ σ1 σ2,
    SetLevel z level1 σ = Ret (None, σ1) ∧
    SetLevel z level2 σ1 = Ret (None, σ2) ∧
    SetLevel z level2 σ = Ret (None, σ2).
Proof.
  intros Hz [l1 H1] [l2 H2]. pose proof (lookup_lt_Some _ _ _ Hz) as Hlt.
  eexists _, _. split_and!.
  - by apply SetLevel_succeeds.
  - erewrite SetLevel_succeeds; [|by apply list_lookup_insert_eq|done].
    simpl. by rewrite list_insert_insert_eq.
  - by erewrite SetLevel_succeeds.
Qed.

(** X14.  [SetLogFormat] twice: the writer of the second format replaces
    that of the first.  Writers do not stack: each is built around the
    stored sink, so the state is the one the second call alone would
    leave. *)
Theorem SetLogFormat_twice (os1 os2 : OS) (z : loc) (format1 format2 : string)
    (σ : heap) (o : ZeroLogger) (c : config) :
  objs σ !! z = Some o →
  cfgs σ !! cfg o = Some c →
  snd (createWriter os1 format1 (out c) (timeFormat c)) = None →
  snd (createWriter os2 format2 (out c) (timeFormat c)) = None →
  ∃ σ1 σ2,
    SetLogFormat os1 z format1 σ = Ret (None, σ1) ∧
    SetLogFormat os2 z format2 σ1 = Ret (None, σ2) ∧
    SetLogFormat os2 z format2 σ = Ret (None, σ2).
Proof.
  intros Hz Hc Hw1 Hw2.
  pose proof (lookup_lt_Some _ _ _ Hz) as Hzlt.
  pose proof (lookup_lt_Some _ _ _ Hc) as Hclt.
  destruct (createWriter os1 format1 (out c) (timeFormat c)) as [w1 err1] eqn:Hcw1.
  destruct (createWriter os2 format2 (out c) (timeFormat c)) as [w2 err2] eqn:Hcw2.
  simpl in Hw1, Hw2. subst err1 err2.
  eexists _, _. split_and!.
  - by apply SetLogFormat_succeeds.
  - erewrite SetLogFormat_succeeds;
      [|by apply list_lookup_insert_eq|simpl; by apply list_lookup_insert_eq|exact Hcw2].
    simpl. by rewrite !list_insert_insert_eq.
  - by apply SetLogFormat_succeeds.
Qed.

(** X15.  [SetLevel] and [SetLogFormat] commute: a successful level
    change and a successful format change on the same facade leave the
    same state in either order. *)
Theorem SetLevel_SetLogFormat_commute (os : OS) (z : loc) (level format : string)
    (σ : heap) (o : ZeroLogger) (c : config) :
  objs σ !! z = Some o →
  cfgs σ !! cfg o = Some c →
  is_Some (ParseLevel (ToLower level)) →
  snd (createWriter os format (out c) (timeFormat c)) = None →
  ∃ σ1 σ2 σ3,
    SetLevel z level σ = Ret (None, σ1) ∧
    SetLogFormat os z format σ1 = Ret (None, σ3) ∧
    SetLogFormat os z format σ = Ret (None, σ2) ∧
    SetLevel z level σ2 = Ret (None, σ3).
Proof.
  intros Hz Hc [l Hl] Hw. pose proof (lookup_lt_Some _ _ _ Hz) as Hlt.
  destruct (createWriter os format (out c) (timeFormat c)) as [w err] eqn:Hcw.
  simpl in Hw. subst err.
  eexists _, _, _. split_and!.
  - by apply SetLevel_succeeds.
  - erewrite SetLogFormat_succeeds; [|by apply list_lookup_insert_eq|done|done].
    simpl. by rewrite list_insert_insert_eq.
  - by apply SetLogFormat_succeeds.
  - erewrite SetLevel_succeeds; [|by apply list_lookup_insert_eq|done].
    simpl. by rewrite list_insert_insert_eq.
Qed.

(** *** Carriers *)

(** X16.  Round trip through a carrier on one facade: for every carrier
    and every live facade, disabled or not, [WithContext] changes no
    state and [FromContext] on the carrier it returns gives a new facade
    with the receiver's own engine handle and configuration. *)
Theorem FromContext_WithContext_self (z : loc) (ctx : zerolog.Carrier) (σ : heap)
    (o : ZeroLogger) :
  objs σ !! z = Some o →
  ∃ ctx' f σ',
    WithContext z ctx σ = Ret (ctx', σ) ∧
    FromContext z ctx' σ = Ret (f, σ') ∧
    objs σ !! f = None ∧
    objs σ' !! f = Some {| logger := logger o; cfg := cfg o |}.
Proof.
  intros Hz.
  exists (zerolog.WithContext (logger o) ctx), (length (objs σ)),
    {| objs := objs σ ++ [{| logger := logger o; cfg := cfg o |}];
       cfgs := cfgs σ; TimeFieldFormat := TimeFieldFormat σ |}.
  split; [by apply WithContext_returns|].
  split_and!; [|apply lookup_ge_None_2; lia|apply lookup_snoc_new].
  assert (Hctx : zerolog.level (zerolog.Ctx (zerolog.WithContext (logger o) ctx))
                 = zerolog.Disabled
                 ∨ (zerolog.level (zerolog.Ctx (zerolog.WithContext (logger o) ctx))
                    ≠ zerolog.Disabled
                    ∧ zerolog.Ctx (zerolog.WithContext (logger o) ctx) = logger o)).
  { unfold zerolog.WithContext.
    destruct (zerolog.bound ctx) as [l0|] eqn:Hb.
    - destruct (decide (zerolog.level (logger o) = zerolog.Disabled)); [by left|by right].
    - destruct (Z.eqb_spec (zerolog.level (logger o)) zerolog.Disabled).
      + left. unfold zerolog.Ctx. by rewrite Hb.
      + by right. }
  destruct Hctx as [Hd|[Hd Heq]].
  - by apply FromContext_fallback.
  - rewrite (FromContext_retrieves _ _ _ _ Hz Hd). by rewrite Heq.
Qed.

(** X17.  The last facade bound to a carrier is the one retrieved: after
    two [WithContext] calls, the second by a facade that is not
    disabled, [FromContext] returns the second facade's engine handle
    (with the receiver's configuration), whatever the first one was. *)
Theorem WithContext_last_wins (first second receiver : loc) (ctx : zerolog.Carrier)
    (σ : heap) (o1 o2 r : ZeroLogger) :
  objs σ !! first = Some o1 →
  objs σ !! second = Some o2 →
  objs σ !! receiver = Some r →
  zerolog.level (logger o2) ≠ zerolog.Disabled →
  ∃ ctx1 ctx2 f σ',
    WithContext first ctx σ = Ret (ctx1, σ) ∧
    WithContext second ctx1 σ = Ret (ctx2, σ) ∧
    FromContext receiver ctx2 σ = Ret (f, σ') ∧
    objs σ' !! f = Some {| logger := logger o2; cfg := cfg r |}.
Proof.
  intros H1 H2 Hr Hl. eexists _, _, _, _.
  split; [by apply WithContext_returns|].
  split; [by apply WithContext_returns|].
  rewrite zerolog_WithContext_enabled by done.
  split; [by apply FromContext_retrieves|]. simpl. apply lookup_snoc_new.
Qed.

(** *** The demonstration program *)

(** X18.  [main] of [example/main.go], in any process whose log file (if
    one is named) opens: it runs to the end without a panic and its nine
    emit calls write eight records.  The first five (trace to error) go
    through a console writer on standard output, coloured unless
    [NO_COLOR] is set, with the fields [app] and [version]; after
    [SetLevel("info")] the debug call writes nothing and the info call
    writes; the facade retrieved from the carrier and given the field
    [key] writes with both field sets; and after [SetLogFormat("json")]
    the last record goes to standard output directly. *)
Theorem main_output (os : OS) :
  log_file_opens os →
  ToLower "console" = "console" →
  ToLower "json" = "json" →
  ParseLevel (ToLower "trace") = Some zerolog.TraceLevel →
  ParseLevel (ToLower "info") = Some zerolog.InfoLevel →
  let cw := ConsoleWriter Stdout RFC3339 (negb (String.eqb (Getenv os "NO_COLOR") "")) in
  ∃ σ,
    main os empty_heap
    = Ret ([Some (main_event cw zerolog.TraceLevel [app_fields]
                    "This is a trace message");
            Some (main_event cw zerolog.DebugLevel [app_fields]
                    "This is a debug message");
            Some (main_event cw zerolog.InfoLevel [app_fields]
                    "This is an info message");
            Some (main_event cw zerolog.WarnLevel [app_fields]
                    "This is a warning message");
            Some (main_event cw zerolog.ErrorLevel [app_fields]
                    "This is an error message");
            None;
            Some (main_event cw zerolog.InfoLevel [app_fields]
                    "This is another info message after changing level");
            Some (main_event cw zerolog.InfoLevel [app_fields; key_fields]
                    "This message is from context with additional fields");
            Some (main_event Stdout zerolog.InfoLevel [app_fields; key_fields]
                    "This message is now in JSON format")], σ).
Proof.
  intros Hopen Hconsole Hjson Htrace Hinfo cw.
  assert (Hw : createWriter os "console" Stdout RFC3339 = (Some cw, None))
    by by apply createWriter_console.
  assert (Hwj : createWriter os "json" Stdout RFC3339 = (Some Stdout, None))
    by by apply createWriter_json.
  unfold main. unfold mbind at 1. unfold M_bind at 1.
  rewrite (New_returns os [WithLevel "trace"; WithLogFormat "console"; WithOutput Stdout]
             empty_heap (Some cw) zerolog.TraceLevel Hopen Hw Htrace).
  unfold WithFields, Trace, Debug, Info, Warn, Error_, emit, SetLevel, WithContext,
    FromContext, SetLogFormat.
  rewrite !convertFields_encode_pairs, Hinfo.
  unfold_M. simpl. rewrite Hwj. simpl. eexists. reflexivity.
Qed.

(** *** Options and malformed fields *)

(** X19.  The order of two neighbouring options matters only when they
    set the same field: swapping two options that set different fields
    changes nothing in what [New] does. *)
Theorem New_options_commute (os : OS) (a b : option_)
    (before after : list option_) (σ : heap) :
  same_field a b = false →
  New os (before ++ a :: b :: after) σ = New os (before ++ b :: a :: after) σ.
Proof.
  intros Hdiff.
  assert (Hfold : ∀ c, foldl apply_option c (before ++ a :: b :: after)
                       = foldl apply_option c (before ++ b :: a :: after)).
  { intros c. rewrite !foldl_app. simpl. f_equal. destruct a, b; done. }
  unfold New, mbind, M_bind.
  destruct (env_config os σ) as [[c σ0]|]; [|done].
  by rewrite Hfold.
Qed.

Lemma encode_pairs_snoc fields x fieldMap :
  Nat.Even (length fields) →
  encode_pairs (fields ++ [x]) fieldMap = encode_pairs fields fieldMap.
Proof.
  intros Heven. rewrite encode_pairs_app by done. by destruct x.
Qed.

(** X20.  Malformed fields never cost the message: an emit method given
    a field sequence with a trailing element that has no partner writes
    what it writes without that element, and given a sequence in which
    no pair is keyed by a string it writes what it writes with no fields
    at all. *)
Theorem emit_ignores_malformed (lvl : zerolog.Level) (e : ending) (z : loc)
    (err : option string) (msg : string) (fields : list any) (σ : heap) :
  is_Some (objs σ !! z) →
  (∀ x, Nat.Even (length fields) →
     emit lvl e z err msg (fields ++ [x]) σ = emit lvl e z err msg fields σ) ∧
  ((∀ key, unwritten fields key) →
     emit lvl e z err msg fields σ = emit lvl e z err msg [] σ).
Proof.
  intros [o Hz]. split.
  - intros x Heven. rewrite !(emit_returns _ _ _ _ _ _ _ _ Hz).
    by rewrite encode_pairs_snoc.
  - intros Hun. rewrite !(emit_returns _ _ _ _ _ _ _ _ Hz).
    assert (encode_pairs fields ∅ = ∅) as ->; [|done].
    apply map_empty. intros key. apply eq_None_not_Some. intros Hsome.
    apply encode_pairs_is_Some in Hsome as [(p & v & Hp)|[v Hv]].
    + by destruct (Hun key p v).
    + by rewrite lookup_empty in Hv.
Qed.

End FurtherFacadeProperties.

(** ** The further properties at work *)

Section FurtherExamples.

#[local] Existing Instance sample_imports.

Lemma convertFields_app_witness :
  Nat.Even (length [AString "a"; AInt 1]) ∧
  ∃ mx my,
    convertFields [AString "a"; AInt 1] = Ret mx ∧
    convertFields [AString "a"; AInt 2; AString "b"; AInt 3] = Ret my ∧
    convertFields ([AString "a"; AInt 1] ++ [AString "a"; AInt 2; AString "b"; AInt 3])
    = Ret (my ∪ mx).
Proof.
  assert (Heven : Nat.Even (length [AString "a"; AInt 1])) by (exists 1%nat; reflexivity).
  split; [exact Heven|].
  apply (convertFields_app [AString "a"; AInt 1]
           [AString "a"; AInt 2; AString "b"; AInt 3] Heven).
Defined.

Lemma sample_heap_well_formed : well_formed sample_heap.
Proof.
  intros [|z] o Hz; simpl in Hz; [|done]. injection Hz as <-. simpl. lia.
Defined.

Lemma run_invariant_witness :
  run plain_os 0 (CallSetLevel "warn") sample_heap
  = Ret (Failure None,
         {| objs := [{| logger := zerolog.Logger_Level sample_logger zerolog.WarnLevel;
                        cfg := 0 |}];
            cfgs := [defaults]; TimeFieldFormat := RFC3339 |}) ∧
  well_formed
    {| objs := [{| logger := zerolog.Logger_Level sample_logger zerolog.WarnLevel;
                   cfg := 0 |}];
       cfgs := [defaults]; TimeFieldFormat := RFC3339 |}.
Proof.
  assert (Hrun : run plain_os 0 (CallSetLevel "warn") sample_heap
    = Ret (Failure None,
           {| objs := [{| logger := zerolog.Logger_Level sample_logger zerolog.WarnLevel;
                          cfg := 0 |}];
              cfgs := [defaults]; TimeFieldFormat := RFC3339 |})) by reflexivity.
  split; [exact Hrun|].
  apply (run_invariant plain_os 0 (CallSetLevel "warn") sample_heap _ _
           sample_heap_well_formed Hrun).
Defined.

Lemma reachable_safe_witness :
  reachable sample_heap ∧
  (∃ r σ', run no_color_os 0 (CallSetLogFormat "Console") sample_heap = Ret (r, σ')) ∧
  ∃ em σ',
    run plain_os 0 (CallFatal None "m" [AInt 1]) sample_heap = Ret (Emitted em, σ') ∧
    ended em = Exits.
Proof.
  assert (Hreach : reachable sample_heap) by (exists [Construct plain_os []]; reflexivity).
  assert (Hz : is_Some (objs sample_heap !! 0)) by (exists sample_facade; reflexivity).
  split; [exact Hreach|].
  destruct (reachable_safe sample_heap Hreach) as [_ Hsafe]. split.
  - destruct (Hsafe no_color_os 0 (CallSetLogFormat "Console") Hz) as (r & σ' & Hrun & _).
    by exists r, σ'.
  - destruct (Hsafe plain_os 0 (CallFatal None "m" [AInt 1]) Hz)
      as (r & σ' & Hrun & Hemit & _).
    destruct (Hemit zerolog.FatalLevel eq_refl) as (em & -> & Hend).
    by exists em, σ'.
Defined.

Lemma New_log_file_panics_witness :
  Getenv locked_file_os "LOG_FILE" ≠ "" ∧
  New locked_file_os [WithOutput Stdout] empty_heap
  = Panics "failed to open log file: permission denied".
Proof.
  assert (Hfile : Getenv locked_file_os "LOG_FILE" ≠ "") by discriminate.
  split; [exact Hfile|].
  apply (New_log_file_panics locked_file_os [WithOutput Stdout] empty_heap
           "permission denied" Hfile).
  reflexivity.
Defined.

Lemma New_format_panics_witness :
  log_file_opens yaml_os ∧
  New yaml_os [WithLevel "bogus"] empty_heap
  = Panics "failed to create log writer: invalid log format".
Proof.
  assert (Hopen : log_file_opens yaml_os) by (left; reflexivity).
  split; [exact Hopen|].
  apply (New_format_panics yaml_os [WithLevel "bogus"] empty_heap Hopen).
  vm_compute. discriminate.
Defined.

Lemma New_effects_witness :
  New warn_env_os [WithTimeFormat "15:04"] sample_heap
  = Ret (1, {| objs := [sample_facade;
                        {| logger := zerolog.Logger_Level sample_logger zerolog.WarnLevel;
                           cfg := 1 |}];
               cfgs := [defaults;
                        {| level := "warn"; logFormat := "json"; timeFormat := "15:04";
                           out := Stdout |}];
               TimeFieldFormat := "15:04" |}) ∧
  ∀ z' o', objs sample_heap !! z' = Some o' → cfg o' ≠ 1%nat.
Proof.
  assert (Hnew : New warn_env_os [WithTimeFormat "15:04"] sample_heap
    = Ret (1, {| objs := [sample_facade;
                          {| logger := zerolog.Logger_Level sample_logger zerolog.WarnLevel;
                             cfg := 1 |}];
                 cfgs := [defaults;
                          {| level := "warn"; logFormat := "json"; timeFormat := "15:04";
                             out := Stdout |}];
                 TimeFieldFormat := "15:04" |})) by reflexivity.
  split; [exact Hnew|].
  destruct (New_effects warn_env_os [WithTimeFormat "15:04"] sample_heap _ 1 Hnew)
    as (w & logLevel & _ & _ & _ & _ & _ & _ & Hfresh).
  apply Hfresh, sample_heap_well_formed.
Defined.

Lemma SetLevel_gates_witness :
  objs sample_heap !! 0 = Some sample_facade ∧
  ∃ σ',
    SetLevel 0 "WARN" sample_heap = Ret (None, σ') ∧
    ∀ os c lvl,
      method_level c = Some lvl →
      ∃ em,
        run os 0 c σ' = Ret (Emitted em, σ') ∧
        ended em = method_ending c ∧
        (is_Some (written em) ↔ (zerolog.WarnLevel ≤ lvl)%Z).
Proof.
  assert (Hz : objs sample_heap !! 0 = Some sample_facade) by reflexivity.
  split; [exact Hz|].
  apply (SetLevel_gates 0 "WARN" sample_heap sample_facade zerolog.WarnLevel Hz).
  reflexivity.
Defined.

Lemma SetLogFormat_keeps_records_witness :
  SetLogFormat plain_os 0 "console" derived_heap = Ret (None, console_heap) ∧
  ∃ em em',
    emit zerolog.InfoLevel Returns 0 None "m" [] derived_heap = Ret (em, derived_heap) ∧
    emit zerolog.InfoLevel Returns 0 None "m" [] console_heap = Ret (em', console_heap) ∧
    written em' = redirect (ConsoleWriter Stdout RFC3339 false) <$> written em.
Proof.
  assert (Hz : objs derived_heap !! 0 = Some sample_facade) by reflexivity.
  assert (Hc : cfgs derived_heap !! cfg sample_facade = Some defaults) by reflexivity.
  assert (Hrun : SetLogFormat plain_os 0 "console" derived_heap
                 = Ret (None, console_heap)) by reflexivity.
  split; [exact Hrun|].
  destruct (SetLogFormat_keeps_records plain_os 0 "console" derived_heap console_heap
              sample_facade defaults Hz Hc Hrun) as (w & Hw & Hem).
  assert (w = ConsoleWriter Stdout RFC3339 false) as ->.
  { assert (createWriter plain_os "console" (out defaults) (timeFormat defaults)
            = (Some (ConsoleWriter Stdout RFC3339 false), None)) as Hw' by reflexivity.
    rewrite Hw' in Hw. by injection Hw. }
  destruct (Hem zerolog.InfoLevel Returns None "m" []) as (em & em' & H1 & H2 & H3 & _).
  exists em, em'. split; [exact H1|]. split; [exact H2|exact H3].
Defined.

Lemma WithFields_records_witness :
  objs sample_heap !! 0 = Some sample_facade ∧
  ∃ fieldMap child σ',
    convertFields [AString "app"; AString "x"; AInt 3] = Ret fieldMap ∧
    WithFields 0 [AString "app"; AString "x"; AInt 3] sample_heap = Ret (child, σ') ∧
    ∀ lvl e err msg fields',
      ∃ em em',
        emit lvl e 0 err msg fields' sample_heap = Ret (em, sample_heap) ∧
        emit lvl e 0 err msg fields' σ' = Ret (em, σ') ∧
        emit lvl e child err msg fields' σ' = Ret (em', σ') ∧
        written em' = attach fieldMap <$> written em.
Proof.
  assert (Hz : objs sample_heap !! 0 = Some sample_facade) by reflexivity.
  split; [exact Hz|].
  destruct (WithFields_records 0 [AString "app"; AString "x"; AInt 3] sample_heap
              sample_facade Hz) as (fm & child & σ' & Hfm & Hwf & Hem & _).
  exists fm, child, σ'. split; [exact Hfm|]. split; [exact Hwf|exact Hem].
Defined.

Lemma SetLevel_twice_witness :
  objs sample_heap !! 0 = Some sample_facade ∧
  ∃ σ1 σ2,
    SetLevel 0 "debug" sample_heap = Ret (None, σ1) ∧
    SetLevel 0 "error" σ1 = Ret (None, σ2) ∧
    SetLevel 0 "error" sample_heap = Ret (None, σ2).
Proof.
  assert (Hz : objs sample_heap !! 0 = Some sample_facade) by reflexivity.
  split; [exact Hz|].
  apply (SetLevel_twice 0 "debug" "error" sample_heap sample_facade Hz).
  - exists zerolog.DebugLevel. reflexivity.
  - exists zerolog.ErrorLevel. reflexivity.
Defined.

Lemma SetLogFormat_twice_witness :
  objs sample_heap !! 0 = Some sample_facade ∧
  ∃ σ1 σ2,
    SetLogFormat no_color_os 0 "console" sample_heap = Ret (None, σ1) ∧
    SetLogFormat plain_os 0 "console" σ1 = Ret (None, σ2) ∧
    SetLogFormat plain_os 0 "console" sample_heap = Ret (None, σ2).
Proof.
  assert (Hz : objs sample_heap !! 0 = Some sample_facade) by reflexivity.
  assert (Hc : cfgs sample_heap !! cfg sample_facade = Some defaults) by reflexivity.
  split; [exact Hz|].
  apply (SetLogFormat_twice no_color_os plain_os 0 "console" "console" sample_heap
           sample_facade defaults Hz Hc); reflexivity.
Defined.

Lemma SetLevel_SetLogFormat_commute_witness :
  objs sample_heap !! 0 = Some sample_facade ∧
  ∃ σ1 σ2 σ3,
    SetLevel 0 "debug" sample_heap = Ret (None, σ1) ∧
    SetLogFormat plain_os 0 "console" σ1 = Ret (None, σ3) ∧
    SetLogFormat plain_os 0 "console" sample_heap = Ret (None, σ2) ∧
    SetLevel 0 "debug" σ2 = Ret (None, σ3).
Proof.
  assert (Hz : objs sample_heap !! 0 = Some sample_facade) by reflexivity.
  assert (Hc : cfgs sample_heap !! cfg sample_facade = Some defaults) by reflexivity.
  split; [exact Hz|].
  apply (SetLevel_SetLogFormat_commute plain_os 0 "debug" "console" sample_heap
           sample_facade defaults Hz Hc).
  - exists zerolog.DebugLevel. reflexivity.
  - reflexivity.
Defined.

Lemma FromContext_WithContext_self_witness :
  objs disabled_heap !! 0 = Some disabled_facade ∧
  ∃ ctx' f σ',
    WithContext 0 zerolog.Background disabled_heap = Ret (ctx', disabled_heap) ∧
    FromContext 0 ctx' disabled_heap = Ret (f, σ') ∧
    objs disabled_heap !! f = None ∧
    objs σ' !! f = Some {| logger := logger disabled_facade; cfg := cfg disabled_facade |}.
Proof.
  assert (Hz : objs disabled_heap !! 0 = Some disabled_facade) by reflexivity.
  split; [exact Hz|].
  apply (FromContext_WithContext_self 0 zerolog.Background disabled_heap
           disabled_facade Hz).
Defined.

Lemma WithContext_last_wins_witness :
  zerolog.level (logger derived_facade) ≠ zerolog.Disabled ∧
  ∃ ctx1 ctx2 f σ',
    WithContext 0 zerolog.Background derived_heap = Ret (ctx1, derived_heap) ∧
    WithContext 1 ctx1 derived_heap = Ret (ctx2, derived_heap) ∧
    FromContext 0 ctx2 derived_heap = Ret (f, σ') ∧
    objs σ' !! f = Some {| logger := logger derived_facade; cfg := cfg sample_facade |}.
Proof.
  assert (Hl : zerolog.level (logger derived_facade) ≠ zerolog.Disabled)
    by (vm_compute; discriminate).
  split; [exact Hl|].
  apply (WithContext_last_wins 0 1 0 zerolog.Background derived_heap
           sample_facade derived_facade sample_facade); [reflexivity..|exact Hl].
Defined.

Lemma main_output_witness :
  log_file_opens no_color_os ∧
  ∃ σ events,
    main no_color_os empty_heap = Ret (events, σ) ∧
    length events = 9%nat ∧
    events !! 5%nat = Some None ∧
    zerolog.ev_out <$> events !!! 8%nat = Some Stdout ∧
    zerolog.ev_out <$> events !!! 0%nat = Some (ConsoleWriter Stdout RFC3339 true).
Proof.
  assert (Hopen : log_file_opens no_color_os) by (left; reflexivity).
  split; [exact Hopen|].
  destruct (main_output no_color_os Hopen) as [σ Hmain]; [reflexivity..|].
  eexists σ, _. split; [exact Hmain|]. split_and!; reflexivity.
Defined.

Lemma New_options_commute_witness :
  same_field (WithLevel "debug") (WithLogFormat "console") = false ∧
  New plain_os ([] ++ WithLevel "debug" :: WithLogFormat "console" :: []) empty_heap
  = New plain_os ([] ++ WithLogFormat "console" :: WithLevel "debug" :: []) empty_heap.
Proof.
  split; [reflexivity|].
  apply (New_options_commute plain_os (WithLevel "debug") (WithLogFormat "console")
           [] [] empty_heap).
  reflexivity.
Defined.

Lemma emit_ignores_malformed_witness :
  is_Some (objs sample_heap !! 0) ∧
  emit zerolog.InfoLevel Returns 0 None "m" ([AString "a"; AInt 1] ++ [AString "b"])
    sample_heap
  = emit zerolog.InfoLevel Returns 0 None "m" [AString "a"; AInt 1] sample_heap.
Proof.
  assert (Hz : is_Some (objs sample_heap !! 0)) by (exists sample_facade; reflexivity).
  split; [exact Hz|].
  apply (emit_ignores_malformed zerolog.InfoLevel Returns 0 None "m"
           [AString "a"; AInt 1] sample_heap Hz).
  exists 1%nat. reflexivity.
Defined.

End FurtherExamples.
